(** * DocumentArrayMemmap: a shallow embedding of [jina/types/arrays/memmap.py]

    The store keeps two files, [header.bin] (fixed-width entries) and
    [body.bin] (concatenated payloads), and an in-memory index
    [_header_map] from keys to [(ordinal, page_offset, start, end)].

    Modelling conventions.
    - The header file is kept at the granularity of its fixed-width entries
      (numpy's [frombuffer] only accepts whole entries); a slot is one
      [header_entry].  The key of a slot is the string numpy gives back for
      a [(np.str_, key_length)] field: the first [key_length] characters,
      trailing NUL characters dropped.
    - Offsets are mathematical integers.  [int(a / b)] goes through a
      binary64 float in Python ([int_truediv]); for [a] below 2^53 in
      absolute value it is the exact quotient truncated toward zero
      ([int_truediv_exact]), which is what [append] computes: the store is
      modelled for files below 2^53 bytes, where the int64 fields of the
      header do not overflow either.
    - Python methods that can raise are state transformers that return the
      state reached when the exception left the method, together with the
      exception: an object mutated before a [raise] stays mutated.
    - Write buffering ([flush]) is not modelled: a write is visible at once.
    - The files of a store are fields of the store value (single-writer
      access to a directory). *)

From Stdlib Require Import String Ascii Bool ZArith Arith Lia List.
From Stdlib Require Import Init.Byte.
Import ListNotations.
Local Open Scope string_scope.
Local Open Scope list_scope.
Local Open Scope Z_scope.

Set Implicit Arguments.

(** ** Python values the store manipulates *)

(** Exceptions that leave the methods of the class. *)
Inductive exn : Type :=
| KeyError
| IndexError
| TypeError
| OSError
| ValueError
| OverflowError.

Inductive result (A : Type) : Type :=
| Ok (a : A)
| Raise (e : exn).
Arguments Ok {A} a.
Arguments Raise {A} e.

(** The external collaborators: the [Document] class with its [id]
    attribute, [binary_str()], the constructor from bytes, and assignment to
    [id]; and the platform constant [mmap.ALLOCATIONGRANULARITY]. *)
Class Platform : Type := {
  Document : Type;
  doc_id : Document -> string;
  binary_str : Document -> list byte;
  Document_from_bytes : list byte -> Document;
  with_id : string -> Document -> Document;
  PAGE_SIZE : Z
}.

(** ** Fixed-width numpy strings *)

Definition is_nul (c : ascii) : bool := Ascii.eqb c zero.

Fixpoint rstrip_nul (s : string) : string :=
  match s with
  | EmptyString => EmptyString
  | String c t =>
      match rstrip_nul t with
      | EmptyString => if is_nul c then EmptyString else String c EmptyString
      | t' => String c t'
      end
  end.

(** What a [(np.str_, n)] field holds after storing [s] and reading it back. *)
Definition np_str (n : nat) (s : string) : string :=
  rstrip_nul (substring 0 n s).

(** ** Python dictionaries with insertion order *)

Module PyDict.
Section Dict.
Variable V : Type.

Definition t := list (string * V).

Fixpoint get (k : string) (d : t) : option V :=
  match d with
  | [] => None
  | (k', v) :: d' => if String.eqb k k' then Some v else get k d'
  end.

Definition mem (k : string) (d : t) : bool :=
  match get k d with Some _ => true | None => false end.

(** [d[k] = v]: an existing key keeps its position, a new key goes last. *)
Fixpoint set (k : string) (v : V) (d : t) : t :=
  match d with
  | [] => [(k, v)]
  | (k', v') :: d' =>
      if String.eqb k k' then (k', v) :: d' else (k', v') :: set k v d'
  end.

(** [d.pop(k)] on a present key. *)
Definition remove (k : string) (d : t) : t :=
  filter (fun kv => negb (String.eqb k (fst kv))) d.

Definition keys (d : t) : list string := map fst d.

Definition len (d : t) : nat := length d.
End Dict.
End PyDict.

(** ** Header entries *)

Record header_entry : Type := mk_entry {
  he_key : string;
  he_page_offset : Z;
  he_start : Z;
  he_end : Z
}.

(** [HEADER_NONE_ENTRY = (-1, -1, -1)] *)
Definition HEADER_NONE_ENTRY : Z * Z * Z := (-1, -1, -1).

(** [np.array_equal((r[1], r[2], r[3]), HEADER_NONE_ENTRY)] *)
Definition is_none_entry (r : header_entry) : bool :=
  let '(a, b, c) := HEADER_NONE_ENTRY in
  (he_page_offset r =? a) && (he_start r =? b) && (he_end r =? c).

(** A value of [_header_map]: [(ordinal, page_offset, start, end)]. *)
Definition pos_info : Type := (nat * Z * Z * Z)%type.

(** A run of zero bytes in the header file reads as this entry. *)
Definition zero_entry : header_entry := mk_entry "" 0 0 0.

(** Writing one entry at slot [idx] of the header file; a seek past the end
    of the file followed by a write fills the gap with zero bytes. *)
Definition write_slot (idx : nat) (e : header_entry) (h : list header_entry)
  : list header_entry :=
  if (idx <? length h)%nat
  then firstn idx h ++ e :: skipn (S idx) h
  else h ++ repeat zero_entry (idx - length h) ++ [e].

(** Writing [data] at byte position [pos] of the body file. *)
Definition write_at (pos : nat) (data : list byte) (b : list byte) : list byte :=
  match data with
  | [] => b
  | _ =>
      if (pos <=? length b)%nat
      then firstn pos b ++ data ++ skipn (pos + length data) b
      else b ++ repeat x00 (pos - length b) ++ data
  end.

(** ** Python slices and ranges *)

Record slice : Type := mk_slice {
  sl_start : option Z;
  sl_stop : option Z;
  sl_step : option Z
}.

(** [x or d] for an optional integer [x]: [None] and [0] are falsy. *)
Definition int_or (x : option Z) (d : Z) : Z :=
  match x with
  | Some v => if v =? 0 then d else v
  | None => d
  end.

(** [len(range(start, stop, step))] *)
Definition range_len (start stop step : Z) : nat :=
  if 0 <? step then Z.to_nat ((stop - start + step - 1) / step)
  else if step <? 0 then Z.to_nat ((start - stop - step - 1) / (- step))
  else 0%nat.

(** [list(range(start, stop, step))] *)
Definition py_range (start stop step : Z) : list Z :=
  map (fun i => start + Z.of_nat i * step) (seq 0 (range_len start stop step)).

(** ** [int(a / b)] *)

(** [n / d] rounded to the nearest integer, ties to the even one. *)
Definition round_half_even (n d : Z) : Z :=
  let q := n / d in
  let r := n mod d in
  if 2 * r <? d then q
  else if d <? 2 * r then q + 1
  else if Z.even q then q else q + 1.

(** [floor(log2(a / b))] for positive [a] and [b]. *)
Definition binade (a b : Z) : Z :=
  let k := Z.log2 a - Z.log2 b in
  if (if 0 <=? k then b * 2 ^ k <=? a else b <=? a * 2 ^ (- k))
  then k else k - 1.

(** [int(a / b)] for positive integers: the quotient rounded to a float
    with a 53-bit significand (round to nearest, ties to even), then
    truncated to an integer.  The exponent range of the float is not
    modelled. *)
Definition float_quot_trunc (a b : Z) : Z :=
  let e := binade a b - 52 in
  if 0 <=? e then round_half_even a (b * 2 ^ e) * 2 ^ e
  else round_half_even (a * 2 ^ (- e)) b / 2 ^ (- e).

(** [int(a / b)] for an integer [a] and a positive integer [b]: Python
    rounds the exact quotient of two integers to a float.  After a load the
    cursor is a numpy [int64], whose quotient is that of the two operands
    converted to floats; below 2^53 in absolute value the conversion is
    exact and the two agree. *)
Definition int_truediv (a b : Z) : Z :=
  if a =? 0 then 0
  else if 0 <? a then float_quot_trunc a b
  else - float_quot_trunc (- a) b.

(** [m[r:]] on a bytes-like object. *)
Definition slice_from (r : Z) (m : list byte) : list byte :=
  if r <? 0
  then skipn (Z.to_nat (Z.max 0 (Z.of_nat (length m) + r))) m
  else skipn (Z.to_nat r) m.

(** [list(enumerate(l))] *)
Definition enumerate (A : Type) (l : list A) : list (nat * A) :=
  combine (seq 0 (length l)) l.

(** [os.path.join(a, b)] for a relative [b]. *)
Definition ends_with_sep (a : string) : bool :=
  match String.length a with
  | O => true
  | S n => String.eqb (substring n 1 a) "/"
  end.

Definition os_path_join (a b : string) : string :=
  if ends_with_sep a then (a ++ b)%string else (a ++ "/" ++ b)%string.

(** Keys a method can be indexed with: [str], [int], [slice], anything else. *)
Inductive index : Type :=
| IStr (k : string)
| IInt (i : Z)
| ISlice (s : slice)
| IOther.

(** The mode [_load_header_body] touches the two files with. *)
Inductive open_mode : Type :=
| Mode_a
| Mode_wb.

(** ** Counting the bytes of byte ranges *)

(** [f 0 + ... + f (n - 1)] *)
Fixpoint sum_below (n : nat) (f : nat -> Z) : Z :=
  match n with
  | O => 0
  | S n' => sum_below n' f + f n'
  end.

(** 1 when byte [x] lies in the range [ab], else 0. *)
Definition in_range (ab : Z * Z) (x : nat) : Z :=
  if (fst ab <=? Z.of_nat x) && (Z.of_nat x <? snd ab) then 1 else 0.

(** The number of ranges of [l] that byte [x] lies in. *)
Fixpoint cover (l : list (Z * Z)) (x : nat) : Z :=
  match l with
  | [] => 0
  | ab :: l' => in_range ab x + cover l' x
  end.

(** The total length of the ranges of [l]. *)
Fixpoint total_length (l : list (Z * Z)) : Z :=
  match l with
  | [] => 0
  | ab :: l' => (snd ab - fst ab) + total_length l'
  end.

Section Memmap.
Context {P : Platform}.

(** ** The buffer pool *)

(** Modelled from the spec: the [BufferPoolManager] class
    ([jina/types/arrays/buffer.py]) is not among the sources.  Section 4.3
    of the specification gives its contract: a cache of at most
    [pool_size] records by key, [add_or_update] inserting or overwriting and
    evicting by recency when the capacity is exceeded, [contains], [get],
    [delete_if_exists], and [clear] dropping every entry.  Records are
    values here, so a cached record is never newer than what was appended
    and [flush] has nothing to write. *)
Record BufferPoolManager : Type := mk_pool {
  pool_size : nat;
  pool_docs : list (string * Document)
}.

(** Modelled from the spec: [contains(key)]. *)
Definition pool_contains (k : string) (bp : BufferPoolManager) : bool :=
  PyDict.mem k (pool_docs bp).

(** Modelled from the spec: [get(key)], absent for a key not cached. *)
Definition pool_get (k : string) (bp : BufferPoolManager) : option Document :=
  PyDict.get k (pool_docs bp).

(** The last [n] elements of a list. *)
Definition lastn (A : Type) (n : nat) (l : list A) : list A :=
  skipn (length l - n) l.

(** Modelled from the spec: [add_or_update(key, record)]; the entry becomes
    the most recent one, and the least recent ones leave when the capacity
    is exceeded. *)
Definition add_or_update (k : string) (d : Document) (bp : BufferPoolManager)
  : BufferPoolManager :=
  mk_pool (pool_size bp)
          (lastn (pool_size bp) (PyDict.remove k (pool_docs bp) ++ [(k, d)])).

(** Modelled from the spec: [delete_if_exists(key)]. *)
Definition delete_if_exists (k : string) (bp : BufferPoolManager)
  : BufferPoolManager :=
  mk_pool (pool_size bp) (PyDict.remove k (pool_docs bp)).

(** Modelled from the spec: [clear()]. *)
Definition pool_clear (bp : BufferPoolManager) : BufferPoolManager :=
  mk_pool (pool_size bp) [].

(** ** The store *)

Record store : Type := mk_store {
  _header_path : string;
  _body_path : string;
  _key_length : nat;
  _header : list header_entry;        (* contents of header.bin *)
  _body : list byte;                  (* contents of body.bin *)
  _body_pos : nat;                    (* position of the [_body] handle *)
  _header_map : PyDict.t pos_info;
  _start : Z;
  buffer_pool : BufferPoolManager
}.

Definition set_header (h : list header_entry) (s : store) : store :=
  mk_store (_header_path s) (_body_path s) (_key_length s) h (_body s)
           (_body_pos s) (_header_map s) (_start s) (buffer_pool s).

Definition set_body (b : list byte) (pos : nat) (s : store) : store :=
  mk_store (_header_path s) (_body_path s) (_key_length s) (_header s) b
           pos (_header_map s) (_start s) (buffer_pool s).

Definition set_header_map (m : PyDict.t pos_info) (s : store) : store :=
  mk_store (_header_path s) (_body_path s) (_key_length s) (_header s)
           (_body s) (_body_pos s) m (_start s) (buffer_pool s).

Definition set_start (x : Z) (s : store) : store :=
  mk_store (_header_path s) (_body_path s) (_key_length s) (_header s)
           (_body s) (_body_pos s) (_header_map s) x (buffer_pool s).

Definition set_buffer_pool (bp : BufferPoolManager) (s : store) : store :=
  mk_store (_header_path s) (_body_path s) (_key_length s) (_header s)
           (_body s) (_body_pos s) (_header_map s) (_start s) bp.

(** [self._header_entry_size = 24 + 4 * self._key_length] *)
Definition _header_entry_size (s : store) : Z :=
  24 + 4 * Z.of_nat (_key_length s).

(** ** Methods as state transformers with exceptions *)

Definition M (A : Type) : Type := store -> result A * store.

Definition ret (A : Type) (a : A) : M A := fun s => (Ok a, s).

Definition raise (A : Type) (e : exn) : M A := fun s => (Raise e, s).
Arguments raise {A} e.

Definition bind (A B : Type) (m : M A) (f : A -> M B) : M B :=
  fun s =>
    match m s with
    | (Ok a, s') => f a s'
    | (Raise e, s') => (Raise e, s')
    end.

Definition gets (A : Type) (f : store -> A) : M A := fun s => (Ok (f s), s).

Definition modify (f : store -> store) : M unit := fun s => (Ok tt, f s).

Notation "x <- c1 ;; c2" := (bind c1 (fun x => c2))
  (at level 61, c1 at next level, right associativity).
Notation "c1 ;; c2" := (bind c1 (fun _ => c2))
  (at level 61, right associativity).

(** [for x in xs: f(x)], stopping at the first exception. *)
Fixpoint for_each (A : Type) (f : A -> M unit) (xs : list A) : M unit :=
  match xs with
  | [] => ret tt
  | x :: xs' => f x ;; for_each f xs'
  end.

(** [[f(x) for x in xs]], stopping at the first exception. *)
Fixpoint collect (A B : Type) (f : A -> M B) (xs : list A) : M (list B) :=
  match xs with
  | [] => ret []
  | x :: xs' => y <- f x ;; ys <- collect f xs' ;; ret (y :: ys)
  end.

(** The dict comprehension of [_load_header_body]: live entries in file
    order, a repeated key keeping its first position and its last value. *)
Definition load_header_map (tmp : list header_entry) : PyDict.t pos_info :=
  fold_left
    (fun d ir =>
       let '(idx, r) := ir in
       if is_none_entry r then d
       else PyDict.set (he_key r)
                       (idx, he_page_offset r, he_start r, he_end r) d)
    (enumerate tmp) [].

(** [_load_header_body(mode)].  Mode ['a'] keeps the files, ['wb'] truncates
    them.  [self._body.seek(self._start)] raises [OSError] on a negative
    offset, after [_header_map] and [_start] have been assigned. *)
Definition _load_header_body (mode : open_mode) : M unit := fun s =>
  let header_bytes := match mode with Mode_a => _header s | Mode_wb => [] end in
  let body_bytes := match mode with Mode_a => _body s | Mode_wb => [] end in
  let tmp := header_bytes in
  let s1 := set_start 0
              (set_header_map (load_header_map tmp)
                 (set_body body_bytes 0 (set_header header_bytes s))) in
  match _header_map s1 with
  | [] => (Ok tt, s1)
  | _ :: _ =>
      let l := last tmp zero_entry in
      let s2 := set_start (he_page_offset l + he_end l) s1 in
      if _start s2 <? 0 then (Raise OSError, s2)
      else (Ok tt, set_body (_body s2) (Z.to_nat (_start s2)) s2)
  end.

(** [reload()] *)
Definition reload : M unit :=
  _load_header_body Mode_a ;;
  modify (fun s => set_buffer_pool (pool_clear (buffer_pool s)) s).

(** [DocumentArrayMemmap(path, key_length, buffer_pool_size)] over a
    directory whose two files hold [header_bytes] and [body_bytes] (both
    empty for a directory that did not exist). *)
Definition __init__ (path : string) (key_length : nat) (buffer_pool_size : nat)
    (header_bytes : list header_entry) (body_bytes : list byte)
  : result unit * store :=
  _load_header_body Mode_a
    (mk_store (os_path_join path "header.bin") (os_path_join path "body.bin")
              key_length header_bytes body_bytes 0 [] 0
              (mk_pool buffer_pool_size [])).

(** [__len__] *)
Definition __len__ (s : store) : nat := PyDict.len (_header_map s).

(** [append(doc, flush, update_buffer)].  [int(self._start / PAGE_SIZE)] is
    [int_truediv (_start s) PAGE_SIZE]; it is written here as the exact
    quotient truncated toward zero, which it equals for a cursor below 2^53
    in absolute value ([int_truediv_exact]). *)
Definition append (doc : Document) (flush : bool) (update_buffer : bool)
  : M unit := fun s =>
  let value := binary_str doc in
  let l := Z.of_nat (length value) in
  let p := Z.quot (_start s) PAGE_SIZE * PAGE_SIZE in
  let r := _start s mod PAGE_SIZE in
  let s1 := set_header
              (_header s ++ [mk_entry (np_str (_key_length s) (doc_id doc))
                                      p r (r + l)]) s in
  let s2 := set_header_map
              (PyDict.set (doc_id doc)
                          (PyDict.len (_header_map s1), p, r, r + l)
                          (_header_map s1)) s1 in
  let s3 := set_start (p + r + l) s2 in
  let s4 := set_body (write_at (_body_pos s3) value (_body s3))
                     (_body_pos s3 + length value) s3 in
  if update_buffer
  then (Ok tt, set_buffer_pool (add_or_update (doc_id doc) doc (buffer_pool s4)) s4)
  else (Ok tt, s4).

(** [extend(values)] *)
Definition extend (values : list Document) : M unit :=
  for_each
    (fun d =>
       append d false true ;;
       modify (fun s => set_buffer_pool
                          (add_or_update (doc_id d) d (buffer_pool s)) s))
    values.

(** [clear()] *)
Definition clear : M unit := _load_header_body Mode_wb.

(** [_iteridx_by_slice(s)] *)
Definition _iteridx_by_slice (sl : slice) (s : store) : list Z :=
  let len := Z.of_nat (__len__ s) in
  let start := int_or (sl_start sl) 0 in
  let stop := match sl_stop sl with Some v => v | None => len end in
  let step := int_or (sl_step sl) 1 in
  let stop := if (stop <? 0) && (- len <=? stop) then stop + len else stop in
  let start := if (start <? 0) && (- len <=? start) then start + len else start in
  let '(start, stop) :=
    if start <=? stop then
      if ((start <? 0) && (stop <? 0)) || ((len <? start) && (len <? stop))
      then (0, 0)
      else if (start <? 0) && (len <? stop) then (0, len)
      else if start <? 0 then (0, stop)
      else if len <? stop then (start, len)
      else (start, stop)
    else (start, stop) in
  py_range start stop step.

(** [mmap.mmap(fileno, offset=offset, length=length)] over a regular file
    holding [body], as the bytes of the mapping. *)
Definition mmap_bytes (body : list byte) (offset length_ : Z)
  : result (list byte) :=
  let size := Z.of_nat (length body) in
  if length_ <? 0 then Raise OverflowError
  else if offset <? 0 then Raise OverflowError
  else if (length_ =? 0) && (size =? 0) then Raise ValueError
  else if (length_ =? 0) && (size <=? offset) then Raise ValueError
  else if negb (length_ =? 0) && (size <? offset + length_) then Raise ValueError
  else if negb (offset mod PAGE_SIZE =? 0) then Raise OSError
  else if length_ =? 0 then Ok (skipn (Z.to_nat offset) body)
  else Ok (firstn (Z.to_nat length_) (skipn (Z.to_nat offset) body)).

(** [get_doc_by_key(key)] *)
Definition get_doc_by_key (key : string) : M Document := fun s =>
  match PyDict.get key (_header_map s) with
  | None => (Raise KeyError, s)
  | Some (_, p, r, l) =>
      match mmap_bytes (_body s) p l with
      | Raise e => (Raise e, s)
      | Ok m => (Ok (Document_from_bytes (slice_from r m)), s)
      end
  end.

(** [_str2int_id(key)] *)
Definition _str2int_id (key : string) : M Z := fun s =>
  match PyDict.get key (_header_map s) with
  | None => (Raise KeyError, s)
  | Some (idx, _, _, _) => (Ok (Z.of_nat idx), s)
  end.

(** [_int2str_id(key)]: the key field of physical slot [key].  The seek
    raises on a negative position; a read past the end of the file gives no
    bytes, hence an empty array, and [d_id[0]] raises [IndexError]. *)
Definition _int2str_id (key : Z) : M string := fun s =>
  let p := key * _header_entry_size s in
  if p <? 0 then (Raise OSError, s)
  else
    match nth_error (_header s) (Z.to_nat key) with
    | Some e => (Ok (he_key e), s)
    | None => (Raise IndexError, s)
    end.

(** [self[key]] for a string key. *)
Definition getitem_str (key : string) : M Document := fun s =>
  match pool_get key (buffer_pool s) with
  | Some d => (Ok d, s)
  | None => get_doc_by_key key s
  end.

(** [_get_doc_array_by_slice(s)] *)
Definition _get_doc_array_by_slice (sl : slice) : M (list Document) :=
  fun s =>
    collect (fun i => k <- _int2str_id i ;; getitem_str k)
            (_iteridx_by_slice sl s) s.

(** What [__getitem__] returns: a [Document] or a [DocumentArray]. *)
Inductive item : Type :=
| A_Document (d : Document)
| A_DocumentArray (ds : list Document).

(** [__getitem__(key)] *)
Definition __getitem__ (key : index) : M item :=
  match key with
  | IStr k => d <- getitem_str k ;; ret (A_Document d)
  | IInt i => k <- _int2str_id i ;; d <- getitem_str k ;; ret (A_Document d)
  | ISlice sl => ds <- _get_doc_array_by_slice sl ;; ret (A_DocumentArray ds)
  | IOther => raise TypeError
  end.

(** [_del_doc(idx, str_key)]: the tombstone is written to slot [idx] before
    the key is popped from [_header_map]. *)
Definition _del_doc (idx : Z) (str_key : string) : M unit := fun s =>
  let p := idx * _header_entry_size s in
  if p <? 0 then (Raise OSError, s)
  else
    let s1 := set_header
                (write_slot (Z.to_nat idx)
                   (mk_entry (np_str (_key_length s) str_key) (-1) (-1) (-1))
                   (_header s)) s in
    if PyDict.mem str_key (_header_map s1)
    then
      let s2 := set_header_map (PyDict.remove str_key (_header_map s1)) s1 in
      (Ok tt, set_buffer_pool (delete_if_exists str_key (buffer_pool s2)) s2)
    else (Raise KeyError, s1).

(** [__delitem__(key)] *)
Definition __delitem__ (key : index) : M unit :=
  match key with
  | IStr k => idx <- _str2int_id k ;; _del_doc idx k
  | IInt idx => str_key <- _int2str_id idx ;; _del_doc idx str_key
  | ISlice sl =>
      fun s =>
        for_each (fun idx => str_key <- _int2str_id idx ;; _del_doc idx str_key)
                 (_iteridx_by_slice sl s) s
  | IOther => raise TypeError
  end.

(** [__iter__]: the records of the live keys, in the order of the dict. *)
Definition __iter__ : M (list Document) := fun s =>
  collect getitem_str (PyDict.keys (_header_map s)) s.

(** [__setitem__(key, value)] *)
Definition __setitem__ (key : index) (value : Document) : M unit :=
  match key with
  | IInt key =>
      fun s =>
        if (0 <=? key) && (key <? Z.of_nat (__len__ s)) then
          (str_key <- _int2str_id key ;;
           append value true true ;;
           (fun s' =>
              match PyDict.get (doc_id value) (_header_map s') with
              | Some v => (Ok tt, set_header_map
                                    (PyDict.set str_key v (_header_map s')) s')
              | None => (Raise KeyError, s')
              end) ;;
           modify (fun s' => set_buffer_pool
                               (add_or_update str_key value (buffer_pool s')) s') ;;
           if String.eqb str_key (doc_id value) then ret tt
           else
             __delitem__ (IStr (doc_id value)) ;;
             modify (fun s' => set_buffer_pool
                                 (delete_if_exists (doc_id value)
                                                   (buffer_pool s')) s')) s
        else (Raise IndexError, s)
  | IStr key =>
      let value := with_id key value in
      append value true true ;;
      modify (fun s' => set_buffer_pool
                          (add_or_update key value (buffer_pool s')) s')
  | _ => raise TypeError
  end.

(** [__bool__] *)
Definition __bool__ (s : store) : bool := (0 <? __len__ s)%nat.

(** [__contains__(item)] *)
Definition __contains__ (item : string) (s : store) : bool :=
  PyDict.mem item (_header_map s).

(** [prune()], with [tdir] the directory [tempfile.mkdtemp()] returned.  The
    records of [self] are read while the temporary store is extended; an
    exception while reading leaves [self] as it was.  The two [shutil.copy]
    calls give [self] the files of the temporary store. *)
Definition prune (tdir : string) : M unit := fun s =>
  match __init__ tdir (_key_length s) 1000 [] [] with
  | (Raise e, _) => (Raise e, s)
  | (Ok _, dam) =>
      match __iter__ s with
      | (Raise e, s') => (Raise e, s')
      | (Ok docs, s') =>
          match (extend docs ;; reload) dam with
          | (Raise e, _) => (Raise e, s')
          | (Ok _, dam') =>
              reload (set_body (_body dam') (_body_pos s')
                        (set_header (_header dam') s'))
          end
      end
  end.

(** Objects [__eq__] can be compared with: an instance of the class or of a
    subclass (the class told by its name), or an object of another type. *)
Inductive pyobj : Type :=
| Memmap_obj (cls : string) (s : store)
| Other_obj (cls : string).

Inductive pytype : Type :=
| Memmap_class (cls : string)
| Other_class (cls : string).

(** [type(o)] *)
Definition py_type (o : pyobj) : pytype :=
  match o with
  | Memmap_obj c _ => Memmap_class c
  | Other_obj c => Other_class c
  end.

(** [t1 is t2] on types. *)
Definition pytype_is (t1 t2 : pytype) : bool :=
  match t1, t2 with
  | Memmap_class a, Memmap_class b => String.eqb a b
  | Other_class a, Other_class b => String.eqb a b
  | _, _ => false
  end.

(** [__eq__(other)] for [self] an instance of class [cls]; the paths of
    [other] are only read when the types agree. *)
Definition __eq__ (cls : string) (self : store) (other : pyobj) : bool :=
  pytype_is (Memmap_class cls) (py_type other) &&
  match other with
  | Memmap_obj _ o =>
      String.eqb (_header_path self) (_header_path o) &&
      String.eqb (_body_path self) (_body_path o)
  | Other_obj _ => false
  end.

(** ** Histories of operations *)

(** What a client can do to a store. *)
Inductive op : Type :=
| Op_append (d : Document)
| Op_extend (ds : list Document)
| Op_setitem (key : index) (d : Document)
| Op_delitem (key : index)
| Op_reload
| Op_clear.

(** The store after one operation, whether it returned or raised. *)
Definition exec (o : op) (s : store) : store :=
  match o with
  | Op_append d => snd (append d true true s)
  | Op_extend ds => snd (extend ds s)
  | Op_setitem key d => snd (__setitem__ key d s)
  | Op_delitem key => snd (__delitem__ key s)
  | Op_reload => snd (reload s)
  | Op_clear => snd (clear s)
  end.

Definition run (ops : list op) (s : store) : store :=
  fold_left (fun s o => exec o s) ops s.

(** The records operation [o] hands to [append] when run on [s]. *)
Definition appended_by (o : op) (s : store) : list Document :=
  match o with
  | Op_append d => [d]
  | Op_extend ds => ds
  | Op_setitem (IInt i) d =>
      if (0 <=? i) && (i <? Z.of_nat (__len__ s)) then
        match fst (_int2str_id i s) with
        | Ok _ => [d]
        | Raise _ => []
        end
      else []
  | Op_setitem (IStr k) d => [with_id k d]
  | _ => []
  end.

(** The records ever appended by a history run from [s]. *)
Fixpoint ever_appended (ops : list op) (s : store) : list Document :=
  match ops with
  | [] => []
  | o :: ops' => appended_by o s ++ ever_appended ops' (exec o s)
  end.

(** Histories made of appends and deletions by key. *)
Inductive edit : Type :=
| Append (d : Document)
| Delete (k : string).

Definition edit_op (e : edit) : op :=
  match e with
  | Append d => Op_append d
  | Delete k => Op_delitem (IStr k)
  end.

Definition deletes (k : string) (e : edit) : bool :=
  match e with
  | Append _ => false
  | Delete k' => String.eqb k k'
  end.

Definition touches (k : string) (e : edit) : bool :=
  match e with
  | Append d => String.eqb k (doc_id d)
  | Delete k' => String.eqb k k'
  end.

(** The number of appended records whose key is not deleted later on. *)
Fixpoint not_tombstoned (es : list edit) : nat :=
  match es with
  | [] => O
  | Append d :: es' =>
      ((if existsb (deletes (doc_id d)) es' then 0 else 1)
       + not_tombstoned es')%nat
  | Delete _ :: es' => not_tombstoned es'
  end.

(** The number of appended records whose key is neither deleted nor
    appended again later on. *)
Fixpoint latest_live (es : list edit) : nat :=
  match es with
  | [] => O
  | Append d :: es' =>
      ((if existsb (touches (doc_id d)) es' then 0 else 1)
       + latest_live es')%nat
  | Delete _ :: es' => latest_live es'
  end.

(** ** Where keys come from *)

(** [k] is the key of a record of [H], as given or as a header slot keeps it. *)
Definition key_of (kl : nat) (H : list Document) (k : string) : Prop :=
  exists d, In d H /\ (k = doc_id d \/ k = np_str kl (doc_id d)).

(** [k] is what a header slot keeps of the key of a record of [H]. *)
Definition slot_key_of (kl : nat) (H : list Document) (k : string) : Prop :=
  exists d, In d H /\ k = np_str kl (doc_id d).

(** The keys of the store come from the records [H]; the ordinals of the
    live mapping point into the header file, which has at least as many
    slots as the mapping has keys. *)
Record store_inv (H : list Document) (s : store) : Prop := mk_store_inv {
  inv_slots : forall e, In e (_header s) ->
                        slot_key_of (_key_length s) H (he_key e);
  inv_keys : forall k, In k (PyDict.keys (_header_map s)) ->
                       key_of (_key_length s) H k;
  inv_ord : forall k o p r e, In (k, (o, p, r, e)) (_header_map s) ->
                              (o < length (_header s))%nat;
  inv_len : (length (_header_map s) <= length (_header s))%nat
}.

(** ** What compaction is judged by *)

(** What iterating the store shows: each live key with the record it
    resolves to, in the order of the live mapping. *)
Definition items (s : store) : result (list (string * Document)) :=
  match fst (__iter__ s) with
  | Ok ds => Ok (combine (PyDict.keys (_header_map s)) ds)
  | Raise e => Raise e
  end.

(** The records iterating the store yields. *)
Definition records (s : store) : result (list Document) := fst (__iter__ s).

(** The size in bytes of the two files. *)
Definition disk_usage (s : store) : Z :=
  Z.of_nat (length (_header s)) * _header_entry_size s
  + Z.of_nat (length (_body s)).

(** The byte range [[page_offset + start, page_offset + end)] of the body
    file that an entry of the live mapping points to. *)
Definition region (v : pos_info) : Z * Z :=
  let '(_, p, r, e) := v in (p + r, p + e).

Definition disjoint (x y : Z * Z) : Prop :=
  snd x <= fst y \/ snd y <= fst x.

(** The header entries that appending [ds] one after the other writes when
    the write cursor starts at [start]. *)
Fixpoint layout (kl : nat) (start : Z) (ds : list Document)
  : list header_entry :=
  match ds with
  | [] => []
  | d :: ds' =>
      mk_entry (np_str kl (doc_id d))
               (Z.quot start PAGE_SIZE * PAGE_SIZE)
               (start mod PAGE_SIZE)
               (start mod PAGE_SIZE + Z.of_nat (length (binary_str d)))
      :: layout kl (start + Z.of_nat (length (binary_str d))) ds'
  end.

End Memmap.

Arguments raise {P A} e.

(** ** A concrete platform

    Records are byte strings that serialise to themselves; the key of a
    record is what precedes its first colon.  Pages have [page] bytes. *)

Fixpoint before_colon (d : list byte) : list byte :=
  match d with
  | [] => []
  | b :: d' => if Byte.eqb b x3a then [] else b :: before_colon d'
  end.

Fixpoint from_colon (d : list byte) : list byte :=
  match d with
  | [] => []
  | b :: d' => if Byte.eqb b x3a then d else from_colon d'
  end.

Definition demo_platform (page : Z) : Platform := {|
  Document := list byte;
  doc_id := fun d => string_of_list_byte (before_colon d);
  binary_str := fun d => d;
  Document_from_bytes := fun b => b;
  with_id := fun k d => list_byte_of_string k ++ from_colon d;
  PAGE_SIZE := page
|}.

(** The record with key [k] and text [t]. *)
Definition demo_doc (k t : string) : list byte :=
  list_byte_of_string (k ++ ":" ++ t).

(** Pages of eight bytes, so that small records cross page boundaries. *)
Definition P8 : Platform := demo_platform 8.

(** A store newly created in an empty directory, with keys of [kl]
    characters. *)
Definition new_store (kl : nat) : @store P8 :=
  snd (@__init__ P8 "/data/dam" kl 1000 [] []).

Definition doc_a : @Document P8 := Eval vm_compute in demo_doc "a" "hello".
Definition doc_a8 : @Document P8 := Eval vm_compute in demo_doc "a" "hello!".
Definition doc_b : @Document P8 := Eval vm_compute in demo_doc "b" "wor".
Definition doc_b' : @Document P8 := Eval vm_compute in demo_doc "b" "zzzz".
Definition doc_c : @Document P8 := Eval vm_compute in demo_doc "c" "xy".
Definition doc_ab : @Document P8 := Eval vm_compute in demo_doc "ab" "x".

(** The stores that the histories named in the comments leave. *)

(** [append(doc_a)] *)
Definition store_a : @store P8 :=
  Eval vm_compute in @run P8 [Op_append doc_a] (new_store 36).

(** [append(doc_a); append(doc_b)] *)
Definition store_a_b : @store P8 :=
  Eval vm_compute in @run P8 [Op_append doc_a; Op_append doc_b] (new_store 36).

(** [append(doc_a); del dam["a"]] *)
Definition store_a_deleted : @store P8 :=
  Eval vm_compute in
    @run P8 [Op_append doc_a; Op_delitem (IStr "a")] (new_store 36).

(** [append(doc_a); append(doc_b); append(doc_c); del dam["b"]] *)
Definition store_a_c : @store P8 :=
  Eval vm_compute in
    @run P8 [Op_append doc_a; Op_append doc_b; Op_append doc_c;
             Op_delitem (IStr "b")] (new_store 36).

(** [append(doc_a); dam[0] = doc_b; append(doc_b')] *)
Definition store_aliased : @store P8 :=
  Eval vm_compute in
    @run P8 [Op_append doc_a; Op_setitem (IInt 0) doc_b; Op_append doc_b']
         (new_store 36).

(** [append(doc_a); append(doc_b); del dam["b"]; reload()], the reload
    raising from its seek. *)
Definition store_cursor_lost : @store P8 :=
  Eval vm_compute in
    @run P8 [Op_append doc_a; Op_append doc_b; Op_delitem (IStr "b");
             Op_reload] (new_store 36).

(** [slice(2, 0, -1)] *)
Definition slice_2_0_back : slice := mk_slice (Some 2) (Some 0) (Some (-1)).

(** * Properties *)

Unset Implicit Arguments.

(** ** Dictionaries *)

Module PyDictFacts.
Section Facts.
Variable V : Type.
Implicit Types (d : PyDict.t V) (k : string) (v : V).

Lemma get_set_same k v d : PyDict.get k (PyDict.set k v d) = Some v.
Proof.
  induction d as [|[k' v'] d IH]; simpl.
  - now rewrite String.eqb_refl.
  - destruct (String.eqb k k') eqn:E; simpl; rewrite E; auto.
Qed.

Lemma get_set_other k k' v d :
  k <> k' -> PyDict.get k (PyDict.set k' v d) = PyDict.get k d.
Proof.
  intros Hne. induction d as [|[k2 v2] d IH]; simpl.
  - destruct (String.eqb_spec k k'); congruence.
  - destruct (String.eqb_spec k' k2); simpl.
    + subst. destruct (String.eqb_spec k k2); congruence.
    + destruct (String.eqb_spec k k2); auto.
Qed.

Lemma get_remove_same k d : PyDict.get k (PyDict.remove k d) = None.
Proof.
  induction d as [|[k' v'] d IH]; simpl; auto.
  destruct (String.eqb k k') eqn:E; simpl; auto. now rewrite E.
Qed.

Lemma get_remove_other k k' d :
  k <> k' -> PyDict.get k (PyDict.remove k' d) = PyDict.get k d.
Proof.
  intros Hne. induction d as [|[k2 v2] d IH]; simpl; auto.
  destruct (String.eqb_spec k' k2); simpl.
  - subst. destruct (String.eqb_spec k k2); congruence.
  - destruct (String.eqb_spec k k2); auto.
Qed.

Lemma mem_remove_same k d : PyDict.mem k (PyDict.remove k d) = false.
Proof. unfold PyDict.mem. now rewrite get_remove_same. Qed.

Lemma mem_In k d : PyDict.mem k d = true <-> In k (PyDict.keys d).
Proof.
  unfold PyDict.mem. induction d as [|[k' v'] d IH]; simpl.
  - split; [discriminate | tauto].
  - destruct (String.eqb_spec k k').
    + subst. tauto.
    + rewrite IH. split; [tauto | intros [?|?]; congruence].
Qed.

Lemma keys_set k v d :
  PyDict.keys (PyDict.set k v d) =
  if PyDict.mem k d then PyDict.keys d else PyDict.keys d ++ [k].
Proof.
  unfold PyDict.mem. induction d as [|[k' v'] d IH]; simpl; auto.
  destruct (String.eqb_spec k k'); simpl; auto.
  rewrite IH. now destruct (PyDict.get k d).
Qed.

Lemma keys_remove k d :
  PyDict.keys (PyDict.remove k d) =
  filter (fun k' => negb (String.eqb k k')) (PyDict.keys d).
Proof.
  induction d as [|[k' v'] d IH]; simpl; auto.
  destruct (String.eqb k k'); simpl; now rewrite IH.
Qed.
End Facts.
End PyDictFacts.

(** ** Fixed-width keys *)

Lemma rstrip_nul_idem (s : string) : rstrip_nul (rstrip_nul s) = rstrip_nul s.
Proof.
  induction s as [|c t IH]; simpl; auto.
  destruct (rstrip_nul t) as [|c' t'] eqn:E.
  - destruct (is_nul c) eqn:Ec; simpl; auto. now rewrite Ec.
  - cbn [rstrip_nul]. cbn [rstrip_nul] in IH. rewrite IH. reflexivity.
Qed.

Lemma rstrip_nul_length (s : string) :
  (String.length (rstrip_nul s) <= String.length s)%nat.
Proof.
  induction s as [|c t IH]; simpl; auto.
  destruct (rstrip_nul t) as [|c' t'].
  - destruct (is_nul c); simpl; lia.
  - simpl in *. lia.
Qed.

Lemma substring_length_le (n : nat) (s : string) :
  (String.length (substring 0 n s) <= n)%nat.
Proof.
  revert s. induction n as [|n IH]; intros [|c t]; simpl; try lia.
  specialize (IH t). lia.
Qed.

Lemma substring_short (n : nat) (s : string) :
  (String.length s <= n)%nat -> substring 0 n s = s.
Proof.
  revert s. induction n as [|n IH]; intros [|c t] H; simpl in *;
    try reflexivity; try lia.
  f_equal. apply IH. lia.
Qed.

Lemma np_str_idem (n : nat) (s : string) : np_str n (np_str n s) = np_str n s.
Proof.
  unfold np_str. rewrite substring_short.
  - apply rstrip_nul_idem.
  - etransitivity; [apply rstrip_nul_length | apply substring_length_le].
Qed.

Section MemmapFacts.
Context {P : Platform}.

Lemma pool_get_delete (k : string) (bp : BufferPoolManager) :
  pool_get k (delete_if_exists k bp) = None.
Proof. apply PyDictFacts.get_remove_same. Qed.

(** ** Equality of instances *)

(** C10: [a == b] holds exactly when the two instances have the same type and
    the same header and body paths; the other fields play no role, so
    instances with the same paths are equal whatever they hold, and
    instances with different header paths are unequal whatever they hold. *)
Theorem eq_same_type_and_paths (ca cb : string) (a b : store) :
  (__eq__ ca a (Memmap_obj cb b) = true <->
   py_type (Memmap_obj ca a) = py_type (Memmap_obj cb b) /\
   _header_path a = _header_path b /\ _body_path a = _body_path b) /\
  (forall kl h bd pos m st bp,
      __eq__ ca a (Memmap_obj ca (mk_store (_header_path a) (_body_path a)
                                           kl h bd pos m st bp)) = true) /\
  (forall kl h bd pos m st bp hp bpath,
      hp <> _header_path a ->
      __eq__ ca a (Memmap_obj ca (mk_store hp bpath kl h bd pos m st bp))
      = false).
Proof.
  unfold __eq__; simpl. split; [split|split].
  - intros H. apply andb_true_iff in H as [H1 H2].
    apply andb_true_iff in H2 as [H2 H3].
    apply String.eqb_eq in H1, H2, H3. now subst.
  - intros (H1 & H2 & H3). injection H1 as ->. rewrite H2, H3.
    now rewrite !String.eqb_refl.
  - intros. now rewrite !String.eqb_refl.
  - intros. destruct (String.eqb_spec (_header_path a) hp); try congruence.
    simpl. apply andb_false_r.
Qed.

(** ** Offsets of an append *)

Lemma round_half_even_bounds (n d : Z) :
  0 < d ->
  n / d <= round_half_even n d <= n / d + 1 /\
  (round_half_even n d = n / d + 1 -> d <= 2 * (n mod d)).
Proof.
  intros Hd. unfold round_half_even.
  destruct (Z.ltb_spec (2 * (n mod d)) d); [lia|].
  destruct (Z.ltb_spec d (2 * (n mod d))); [lia|].
  destruct (Z.even (n / d)); lia.
Qed.

Lemma binade_spec (a b : Z) :
  0 < a -> 0 < b ->
  let E := binade a b in
  (0 <= E -> b * 2 ^ E <= a < b * 2 ^ (E + 1)) /\
  (E < 0 -> b <= a * 2 ^ (- E) < 2 * b).
Proof.
  intros Ha Hb E.
  destruct (Z.log2_spec a Ha) as [La Ua].
  destruct (Z.log2_spec b Hb) as [Lb Ub].
  pose proof (Z.log2_nonneg a) as Na. pose proof (Z.log2_nonneg b) as Nb.
  set (la := Z.log2 a) in *. set (lb := Z.log2 b) in *.
  rewrite <- Z.add_1_r in Ua, Ub.
  subst E. unfold binade. fold la lb.
  assert (P2 : forall x, 0 <= x -> 2 ^ (x + 1) = 2 * 2 ^ x).
  { intros x Hx. rewrite Z.pow_add_r by lia. lia. }
  assert (Ppos : forall x, 0 <= x -> 0 < 2 ^ x).
  { intros x Hx. apply Z.pow_pos_nonneg; lia. }
  destruct (Z.leb_spec 0 (la - lb)) as [Hk|Hk].
  - (* la = lb + k *)
    assert (Hla : 2 ^ la = 2 ^ lb * 2 ^ (la - lb)).
    { rewrite <- Z.pow_add_r by lia. f_equal; lia. }
    pose proof (Ppos (la - lb) Hk) as Hpk. pose proof (Ppos lb Nb) as Hpb.
    rewrite (P2 la Na) in Ua. rewrite (P2 lb Nb) in Ub.
    destruct (Z.leb_spec (b * 2 ^ (la - lb)) a) as [Ht|Ht].
    + split; [|lia]. intros _. split; [exact Ht|].
      rewrite (P2 _ Hk). nia.
    + split.
      * intros Hk1. replace (la - lb - 1 + 1) with (la - lb) by lia.
        split; [|exact Ht].
        assert (Hs : 2 ^ (la - lb) = 2 * 2 ^ (la - lb - 1)).
        { rewrite <- (P2 _ Hk1). f_equal; lia. }
        pose proof (Ppos _ Hk1). nia.
      * intros Hk1. assert (Hz : la - lb = 0) by lia.
        rewrite Hz in *. replace (- (0 - 1)) with 1 by lia.
        change (2 ^ 1) with 2. change (2 ^ 0) with 1 in *. nia.
  - assert (Hlb : 2 ^ lb = 2 ^ la * 2 ^ (- (la - lb))).
    { rewrite <- Z.pow_add_r by lia. f_equal; lia. }
    assert (Hnk : 0 <= - (la - lb)) by lia.
    pose proof (Ppos _ Hnk) as Hpk. pose proof (Ppos la Na) as Hpa.
    rewrite (P2 la Na) in Ua. rewrite (P2 lb Nb) in Ub.
    destruct (Z.leb_spec b (a * 2 ^ (- (la - lb)))) as [Ht|Ht].
    + split; [lia|]. intros _. split; [exact Ht|]. nia.
    + split; [lia|]. intros _.
      replace (- (la - lb - 1)) with (- (la - lb) + 1) by lia.
      rewrite (P2 _ Hnk). split; nia.
Qed.

Lemma float_quot_trunc_exact (a b : Z) :
  0 < a < 2 ^ 53 -> 0 < b -> float_quot_trunc a b = a / b.
Proof.
  intros [Ha Hu] Hb. unfold float_quot_trunc.
  destruct (binade_spec a b Ha Hb) as [Hpos Hneg].
  set (E := binade a b) in *. clearbody E.
  assert (Ppos : forall x, 0 <= x -> 0 < 2 ^ x).
  { intros x Hx. apply Z.pow_pos_nonneg; lia. }
  assert (HE : E <= 52).
  { destruct (Z.le_gt_cases E 52) as [|Hgt]; auto. exfalso.
    destruct (Hpos ltac:(lia)) as [Hl _].
    assert (2 ^ 53 <= 2 ^ E) by (apply Z.pow_le_mono_r; lia). nia. }
  (* b < 2 * 2 ^ (52 - E) *)
  assert (Hb2 : b < 2 * 2 ^ (52 - E)).
  { destruct (Z.le_gt_cases 0 E) as [H0|H0].
    - destruct (Hpos H0) as [Hl _].
      assert (H52 : 2 ^ 52 = 2 ^ (52 - E) * 2 ^ E).
      { rewrite <- Z.pow_add_r by lia. f_equal; lia. }
      pose proof (Ppos E H0). pose proof (Ppos (52 - E) ltac:(lia)).
      change (2 ^ 53) with (2 * 2 ^ 52) in Hu. nia.
    - destruct (Hneg H0) as [Hl _].
      assert (H53 : 2 ^ (52 - E) = 2 ^ 52 * 2 ^ (- E)).
      { rewrite <- Z.pow_add_r by lia. f_equal; lia. }
      pose proof (Ppos (- E) ltac:(lia)).
      change (2 ^ 53) with (2 * 2 ^ 52) in Hu. nia. }
  destruct (Z.leb_spec 0 (E - 52)) as [He|He].
  - assert (E = 52) by lia. subst E.
    change (2 ^ (52 - 52)) with 1 in *. change (2 ^ (52 - 52)) with 1.
    assert (b = 1) by lia. subst b.
    unfold round_half_even. rewrite Z.mul_1_l, Z.mod_1_r, Z.div_1_r. simpl.
    lia.
  - replace (- (E - 52)) with (52 - E) by lia.
    set (s := 2 ^ (52 - E)) in *.
    assert (Hs2 : 2 <= s).
    { subst s. change 2 with (2 ^ 1) at 1. apply Z.pow_le_mono_r; lia. }
    clearbody s.
    destruct (round_half_even_bounds (a * s) b Hb) as [[Hlo Hhi] Hup].
    set (m := round_half_even (a * s) b) in *. clearbody m.
    pose proof (Z.div_mod a b ltac:(lia)) as Hdm.
    pose proof (Z.mod_pos_bound a b Hb) as Hr.
    pose proof (Z.div_mod (a * s) b ltac:(lia)) as Hdm2.
    pose proof (Z.mod_pos_bound (a * s) b Hb) as Hr2.
    set (q := a / b) in *. set (r := a mod b) in *.
    set (t := (a * s) / b) in *. set (u := (a * s) mod b) in *.
    clearbody q r t u.
    assert (Hq0 : 0 <= q).
    { destruct (Z.le_gt_cases 0 q); auto. nia. }
    (* q * s <= t < (q + 1) * s *)
    assert (Ht1 : q * s <= t) by nia.
    assert (Ht2 : t < (q + 1) * s) by nia.
    assert (Hm : q * s <= m < (q + 1) * s).
    { split; [lia|].
      destruct (Z.eq_dec m (t + 1)) as [Heq|]; [|lia].
      specialize (Hup Heq).
      destruct (Z.eq_dec (t + 1) ((q + 1) * s)) as [Heq2|]; [|lia].
      exfalso. nia. }
    symmetry. apply Z.div_unique with (r := m - q * s); lia.
Qed.

Lemma int_truediv_exact (a b : Z) :
  - 2 ^ 53 < a < 2 ^ 53 -> 0 < b -> int_truediv a b = Z.quot a b.
Proof.
  intros Ha Hb. unfold int_truediv.
  destruct (Z.eqb_spec a 0) as [->|Hne]; [now rewrite Z.quot_0_l by lia|].
  destruct (Z.ltb_spec 0 a).
  - rewrite float_quot_trunc_exact by lia.
    symmetry. apply Z.quot_div_nonneg; lia.
  - rewrite float_quot_trunc_exact by lia.
    rewrite <- (Z.quot_div_nonneg (- a) b) by lia.
    rewrite Z.quot_opp_l by lia. lia.
Qed.

(** C4 (as the code has it): with a positive page size and a write cursor
    that is non-negative and below 2^53, the quotient the code computes in
    floating point and truncates is [floor(cursor / page_size)]; the entry
    an append records has
    [page_offset = floor(cursor / page_size) * page_size],
    [start = cursor mod page_size], [end = start + L]; the cursor advances
    to [page_offset + end], which is [cursor + L]; and when the new cursor
    is a multiple of the page size (and below 2^53) the next append records
    [page_offset] equal to that cursor and [start = 0]. *)
Theorem append_offsets (doc : Document) (flush update_buffer : bool) (s : store) :
  0 < PAGE_SIZE -> 0 <= _start s < 2 ^ 53 ->
  let s' := snd (append doc flush update_buffer s) in
  let L := Z.of_nat (length (binary_str doc)) in
  let p := _start s / PAGE_SIZE * PAGE_SIZE in
  let r := _start s mod PAGE_SIZE in
  int_truediv (_start s) PAGE_SIZE = _start s / PAGE_SIZE /\
  fst (append doc flush update_buffer s) = Ok tt /\
  _header s' = _header s ++ [mk_entry (np_str (_key_length s) (doc_id doc))
                                      p r (r + L)] /\
  PyDict.get (doc_id doc) (_header_map s') = Some (__len__ s, p, r, r + L) /\
  _start s' = p + (r + L) /\
  _start s' = _start s + L /\
  (_start s' mod PAGE_SIZE = 0 -> _start s' < 2 ^ 53 ->
   forall doc2 flush2 update_buffer2,
     let s'' := snd (append doc2 flush2 update_buffer2 s') in
     let L2 := Z.of_nat (length (binary_str doc2)) in
     int_truediv (_start s') PAGE_SIZE * PAGE_SIZE = _start s' /\
     _header s'' = _header s' ++
                   [mk_entry (np_str (_key_length s) (doc_id doc2))
                             (_start s') 0 L2] /\
     _start s'' = _start s' + L2).
Proof.
  intros Hpage [Hstart Hbound] s' L p r.
  assert (Hq : forall x, 0 <= x -> Z.quot x PAGE_SIZE = x / PAGE_SIZE).
  { intros x Hx. apply Z.quot_div_nonneg; lia. }
  assert (Hs' : _start s' = p + (r + L)).
  { subst s' p r L. unfold append.
    destruct update_buffer; simpl; rewrite Hq by assumption; lia. }
  assert (Hsum : p + r = _start s).
  { subst p r. pose proof (Z.div_mod (_start s) PAGE_SIZE). lia. }
  split.
  { rewrite int_truediv_exact by lia. now apply Hq. }
  split; [unfold append; now destruct update_buffer|].
  split.
  { subst s' p r L. unfold append.
    destruct update_buffer; simpl; now rewrite Hq. }
  split.
  { subst s' p r L. unfold append.
    destruct update_buffer; simpl; rewrite PyDictFacts.get_set_same;
      now rewrite Hq. }
  split; [exact Hs'|]. split; [lia|].
  intros Hmod Hbound' doc2 flush2 update_buffer2 s'' L2.
  assert (Hk : _key_length s' = _key_length s).
  { subst s'. unfold append. now destruct update_buffer. }
  assert (Hnn : 0 <= _start s') by lia.
  assert (Hdiv : _start s' / PAGE_SIZE * PAGE_SIZE = _start s').
  { pose proof (Z.div_mod (_start s') PAGE_SIZE). lia. }
  split.
  { rewrite int_truediv_exact by lia. now rewrite Hq. }
  subst s'' L2. generalize dependent s'. intros s' Hs' Hmod Hbound' Hk Hnn Hdiv.
  unfold append.
  destruct update_buffer2; simpl; rewrite Hq, Hdiv, Hmod, Hk by assumption;
    split; try reflexivity; lia.
Qed.

(** ** Deletion *)

Lemma _del_doc_live (o : nat) (k : string) (s : store) :
  PyDict.mem k (_header_map s) = true ->
  _del_doc (Z.of_nat o) k s =
  (Ok tt,
   set_buffer_pool (delete_if_exists k (buffer_pool s))
     (set_header_map (PyDict.remove k (_header_map s))
        (set_header (write_slot o (mk_entry (np_str (_key_length s) k)
                                            (-1) (-1) (-1)) (_header s)) s))).
Proof.
  intros Hk. unfold _del_doc.
  assert (Hp : (Z.of_nat o * _header_entry_size s <? 0) = false).
  { apply Z.ltb_ge. unfold _header_entry_size. nia. }
  rewrite Hp. simpl. rewrite Hk. now rewrite Nat2Z.id.
Qed.

Lemma __delitem___live (k : string) (s : store) :
  PyDict.mem k (_header_map s) = true ->
  exists o p r e,
    PyDict.get k (_header_map s) = Some (o, p, r, e) /\
    __delitem__ (IStr k) s = _del_doc (Z.of_nat o) k s.
Proof.
  intros Hk. unfold PyDict.mem in Hk.
  destruct (PyDict.get k (_header_map s)) as [[[[o p] r] e]|] eqn:E;
    [|discriminate].
  exists o, p, r, e. split; auto.
  simpl. unfold bind, _str2int_id. now rewrite E.
Qed.

Lemma write_slot_other (o j : nat) (e : header_entry) (h : list header_entry) :
  j <> o -> (j < length h)%nat ->
  nth_error (write_slot o e h) j = nth_error h j.
Proof.
  intros Hne Hj. unfold write_slot.
  destruct (Nat.ltb_spec o (length h)) as [Ho|Ho].
  - destruct (Nat.lt_ge_cases j o) as [Hlt|Hge].
    + rewrite nth_error_app1 by (rewrite length_firstn; lia).
      now rewrite nth_error_firstn, (proj2 (Nat.ltb_lt _ _) Hlt).
    + rewrite nth_error_app2 by (rewrite length_firstn; lia).
      rewrite length_firstn, Nat.min_l by lia.
      destruct (j - o)%nat as [|n] eqn:En; [lia|]. cbn [nth_error].
      rewrite nth_error_skipn. f_equal. lia.
  - now rewrite nth_error_app1 by lia.
Qed.

(** C6: deleting a live key returns normally; afterwards the membership test
    is false and fetching the key raises [KeyError], through [__getitem__]
    as through [get_doc_by_key]; the body file is unchanged. *)
Theorem delete_then_absent (k : string) (s : store) :
  PyDict.mem k (_header_map s) = true ->
  let s' := snd (__delitem__ (IStr k) s) in
  fst (__delitem__ (IStr k) s) = Ok tt /\
  __contains__ k s' = false /\
  fst (__getitem__ (IStr k) s') = Raise KeyError /\
  fst (get_doc_by_key k s') = Raise KeyError /\
  _body s' = _body s.
Proof.
  intros Hk s'. destruct (__delitem___live k s Hk) as (o & p & r & e & _ & Hd).
  subst s'. rewrite Hd, (_del_doc_live o k s Hk). simpl.
  split; [reflexivity|]. split.
  { unfold __contains__. simpl. apply PyDictFacts.mem_remove_same. }
  split.
  { unfold bind, getitem_str. simpl. rewrite pool_get_delete.
    unfold get_doc_by_key. simpl. now rewrite PyDictFacts.get_remove_same. }
  split; [|reflexivity].
  unfold get_doc_by_key. simpl. now rewrite PyDictFacts.get_remove_same.
Qed.

(** ** Loading *)

Lemma combine_app_same (A B : Type) (l1 l2 : list A) (m1 m2 : list B) :
  length l1 = length m1 ->
  combine (l1 ++ l2) (m1 ++ m2) = combine l1 m1 ++ combine l2 m2.
Proof.
  revert m1. induction l1 as [|x l1 IH]; intros [|y m1] H; simpl in *;
    try discriminate; auto.
  f_equal. apply IH. now injection H.
Qed.

Lemma enumerate_snoc (A : Type) (l : list A) (x : A) :
  enumerate (l ++ [x]) = enumerate l ++ [(length l, x)].
Proof.
  unfold enumerate. rewrite length_app, seq_app. simpl.
  rewrite combine_app_same by now rewrite length_seq. reflexivity.
Qed.

Lemma load_header_map_snoc (h : list header_entry) (l : header_entry) :
  load_header_map (h ++ [l]) =
  if is_none_entry l then load_header_map h
  else PyDict.set (he_key l)
                  (length h, he_page_offset l, he_start l, he_end l)
                  (load_header_map h).
Proof.
  unfold load_header_map. rewrite enumerate_snoc, fold_left_app. reflexivity.
Qed.

Lemma set_not_nil (V : Type) (k : string) (v : V) (d : PyDict.t V) :
  PyDict.set k v d <> [].
Proof.
  destruct d as [|[k' v'] d]; simpl; [discriminate|].
  destruct (String.eqb k k'); discriminate.
Qed.

Lemma load_header_map_all_none (h : list header_entry) :
  Forall (fun e => is_none_entry e = true) h -> load_header_map h = [].
Proof.
  induction h as [|l h IH] using rev_ind; intros Hall; [reflexivity|].
  apply Forall_app in Hall as [Hh Hl]. inversion Hl; subst.
  rewrite load_header_map_snoc, H1. auto.
Qed.

Lemma _load_header_body_files (s : store) :
  _header (snd (_load_header_body Mode_a s)) = _header s /\
  _body (snd (_load_header_body Mode_a s)) = _body s /\
  _header_map (snd (_load_header_body Mode_a s)) = load_header_map (_header s).
Proof.
  unfold _load_header_body. simpl.
  destruct (load_header_map (_header s)) eqn:E; simpl; auto.
  destruct (_ <? 0); simpl; auto.
Qed.

Lemma reload_files (s : store) :
  _header (snd (reload s)) = _header s /\
  _body (snd (reload s)) = _body s /\
  _header_map (snd (reload s)) = load_header_map (_header s).
Proof.
  pose proof (_load_header_body_files s) as H.
  unfold reload, bind, modify.
  destruct (_load_header_body Mode_a s) as [[[]|e] s1]; simpl in *; auto.
Qed.

Lemma _load_header_body_outcome (s : store) :
  fst (_load_header_body Mode_a s) =
  match load_header_map (_header s) with
  | [] => Ok tt
  | _ :: _ =>
      if he_page_offset (last (_header s) zero_entry)
         + he_end (last (_header s) zero_entry) <? 0
      then Raise OSError else Ok tt
  end.
Proof.
  unfold _load_header_body.
  cbn [_header_map set_start set_header_map set_body set_header _header _start].
  destruct (load_header_map (_header s)); [reflexivity|].
  destruct (_ <? 0); reflexivity.
Qed.

Lemma reload_outcome (s : store) :
  fst (reload s) = fst (_load_header_body Mode_a s).
Proof.
  unfold reload, bind, modify.
  now destruct (_load_header_body Mode_a s) as [[[]|e] s1].
Qed.

(** C8: a second [reload] right after a first one gives the same live
    mapping, and the same outcome, as the first. *)
Theorem reload_idempotent (s : store) :
  _header_map (snd (reload (snd (reload s)))) = _header_map (snd (reload s)) /\
  fst (reload (snd (reload s))) = fst (reload s).
Proof.
  destruct (reload_files s) as (Hh & Hb & Hm).
  destruct (reload_files (snd (reload s))) as (Hh' & Hb' & Hm').
  split; [now rewrite Hm', Hh, Hm|].
  now rewrite !reload_outcome, !_load_header_body_outcome, Hh.
Qed.

Lemma append_state (doc : Document) (flush update_buffer : bool) (s : store) :
  let s' := snd (append doc flush update_buffer s) in
  let l := Z.of_nat (length (binary_str doc)) in
  let p := Z.quot (_start s) PAGE_SIZE * PAGE_SIZE in
  let r := _start s mod PAGE_SIZE in
  fst (append doc flush update_buffer s) = Ok tt /\
  _header s' = _header s ++ [mk_entry (np_str (_key_length s) (doc_id doc))
                                      p r (r + l)] /\
  _header_map s' = PyDict.set (doc_id doc) (__len__ s, p, r, r + l)
                              (_header_map s) /\
  _start s' = p + r + l /\
  _body s' = write_at (_body_pos s) (binary_str doc) (_body s) /\
  _body_pos s' = (_body_pos s + length (binary_str doc))%nat /\
  _key_length s' = _key_length s /\
  _header_path s' = _header_path s /\ _body_path s' = _body_path s.
Proof.
  unfold append. destruct update_buffer; simpl; repeat split; reflexivity.
Qed.

(** C1 (as the code has it): loading sets the write cursor to 0 when every
    slot of the header is a tombstone, and to [page_offset + end] of the last
    physical entry when that entry is live; reloading right after an append
    made at a non-negative cursor returns normally and resumes at the cursor
    that append left. *)
Theorem load_resume_offset (s : store) :
  (Forall (fun e => is_none_entry e = true) (_header s) ->
   fst (_load_header_body Mode_a s) = Ok tt /\
   _header_map (snd (_load_header_body Mode_a s)) = [] /\
   _start (snd (_load_header_body Mode_a s)) = 0 /\
   _body_pos (snd (_load_header_body Mode_a s)) = 0%nat) /\
  (forall h l,
      _header s = h ++ [l] -> is_none_entry l = false ->
      _start (snd (_load_header_body Mode_a s)) = he_page_offset l + he_end l) /\
  (forall doc flush update_buffer,
      0 < PAGE_SIZE -> 0 <= _start s ->
      let s1 := snd (append doc flush update_buffer s) in
      fst (reload s1) = Ok tt /\
      _start (snd (reload s1)) = _start s1 /\
      _body_pos (snd (reload s1)) = Z.to_nat (_start s1)).
Proof.
  split; [|split].
  - intros Hall. unfold _load_header_body. simpl.
    rewrite (load_header_map_all_none _ Hall). simpl. auto.
  - intros h l Hh Hl. unfold _load_header_body. simpl.
    rewrite Hh, load_header_map_snoc, Hl.
    destruct (PyDict.set _ _ _) eqn:E; [now apply set_not_nil in E|].
    simpl. rewrite last_last.
    destruct (_ <? 0); reflexivity.
  - intros doc flush update_buffer Hpage Hstart s1.
    destruct (append_state doc flush update_buffer s)
      as (_ & Hh & _ & Hst & _). fold s1 in Hh, Hst.
    assert (Hq : Z.quot (_start s) PAGE_SIZE = _start s / PAGE_SIZE)
      by (apply Z.quot_div_nonneg; lia).
    assert (Hdm := Z.div_mod (_start s) PAGE_SIZE). specialize (Hdm ltac:(lia)).
    pose proof (Z.mod_pos_bound (_start s) PAGE_SIZE Hpage) as Hmod.
    assert (Hp : 0 <= Z.quot (_start s) PAGE_SIZE * PAGE_SIZE).
    { rewrite Hq. apply Z.mul_nonneg_nonneg; [|lia].
      apply Z.div_pos; lia. }
    set (l := mk_entry (np_str (_key_length s) (doc_id doc))
                (Z.quot (_start s) PAGE_SIZE * PAGE_SIZE)
                (_start s mod PAGE_SIZE)
                (_start s mod PAGE_SIZE + Z.of_nat (length (binary_str doc))))
      in *.
    assert (Hl : is_none_entry l = false).
    { unfold is_none_entry. simpl.
      destruct (Z.eqb_spec (Z.quot (_start s) PAGE_SIZE * PAGE_SIZE) (-1));
        [lia | reflexivity]. }
    assert (Hsum : he_page_offset l + he_end l = _start s1).
    { rewrite Hst. simpl. lia. }
    unfold reload, bind, modify, _load_header_body. simpl.
    rewrite Hh, load_header_map_snoc, Hl.
    destruct (PyDict.set _ _ _) eqn:E; [now apply set_not_nil in E|].
    simpl. rewrite last_last, Hsum.
    assert (Hnn : (_start s1 <? 0) = false) by (apply Z.ltb_ge; lia).
    rewrite Hnn. simpl. auto.
Qed.

(** ** The size of the live mapping *)

Lemma filter_length_split (f : string -> bool) (x : string) (l : list string) :
  NoDup l -> In x l ->
  length (filter f l) =
  ((if f x then 1 else 0) +
   length (filter (fun k => negb (String.eqb x k) && f k) l))%nat.
Proof.
  induction l as [|y l IH]; intros Hnd Hin; [contradiction|].
  inversion Hnd as [|? ? Hy Hnd']; subst. simpl.
  destruct (String.eqb_spec x y) as [->|Hne].
  - simpl.
    assert (Hsame : filter (fun k => negb (String.eqb y k) && f k) l
                    = filter f l).
    { apply filter_ext_in. intros k Hk.
      destruct (String.eqb_spec y k); [subst; contradiction | reflexivity]. }
    rewrite Hsame. destruct (f y); simpl; lia.
  - destruct Hin as [->|Hin]; [congruence|].
    simpl. destruct (f y); simpl; rewrite (IH Hnd' Hin);
      destruct (f x); simpl; lia.
Qed.

Lemma filter_absent (f : string -> bool) (x : string) (l : list string) :
  ~ In x l ->
  filter (fun k => negb (String.eqb x k) && f k) l = filter f l.
Proof.
  intros Hx. apply filter_ext_in. intros k Hk.
  destruct (String.eqb_spec x k); [subst; contradiction | reflexivity].
Qed.

Lemma filter_filter (A : Type) (f g : A -> bool) (l : list A) :
  filter f (filter g l) = filter (fun x => g x && f x) l.
Proof.
  induction l as [|x l IH]; simpl; auto.
  destruct (g x); simpl; [destruct (f x)|]; now rewrite IH.
Qed.

Lemma NoDup_filter_keys (A : Type) (f : A -> bool) (l : list A) :
  NoDup l -> NoDup (filter f l).
Proof.
  induction 1 as [|x l Hx Hnd IH]; simpl; [constructor|].
  destruct (f x); auto. constructor; auto.
  intros Hin. apply filter_In in Hin. tauto.
Qed.

Lemma exec_append_keys (d : Document) (s : store) :
  PyDict.keys (_header_map (exec (Op_append d) s)) =
  if PyDict.mem (doc_id d) (_header_map s)
  then PyDict.keys (_header_map s)
  else PyDict.keys (_header_map s) ++ [doc_id d].
Proof.
  cbn [exec]. destruct (append_state d true true s) as (_ & _ & Hm & _).
  rewrite Hm. apply PyDictFacts.keys_set.
Qed.

Lemma filter_all (A : Type) (f : A -> bool) (l : list A) :
  (forall x, In x l -> f x = true) -> filter f l = l.
Proof.
  induction l as [|x l IH]; intros H; simpl; auto.
  rewrite (H x (or_introl eq_refl)). f_equal. apply IH.
  intros y Hy. apply H. now right.
Qed.

Lemma exec_delete_keys (k : string) (s : store) :
  PyDict.keys (_header_map (exec (Op_delitem (IStr k)) s)) =
  filter (fun k' => negb (String.eqb k k')) (PyDict.keys (_header_map s)).
Proof.
  cbn [exec]. destruct (PyDict.mem k (_header_map s)) eqn:Hk.
  - destruct (__delitem___live k s Hk) as (o & p & r & e & _ & Hd).
    rewrite Hd, (_del_doc_live o k s Hk). simpl.
    apply PyDictFacts.keys_remove.
  - assert (Hnot : ~ In k (PyDict.keys (_header_map s))).
    { intros Hin. apply PyDictFacts.mem_In in Hin. congruence. }
    unfold __delitem__, bind, _str2int_id. unfold PyDict.mem in Hk.
    destruct (PyDict.get k (_header_map s)); [discriminate|]. simpl.
    symmetry. apply filter_all. intros x Hx.
    destruct (String.eqb_spec k x); [subst; contradiction | reflexivity].
Qed.

Lemma NoDup_snoc (A : Type) (x : A) (l : list A) :
  NoDup l -> ~ In x l -> NoDup (l ++ [x]).
Proof.
  intros Hnd Hx. apply NoDup_app; [assumption | repeat constructor; auto |].
  intros y Hy [->|[]]. contradiction.
Qed.

Lemma latest_live_from (es : list edit) (s : store) :
  NoDup (PyDict.keys (_header_map s)) ->
  __len__ (run (map edit_op es) s) =
  (latest_live es +
   length (filter (fun k => negb (existsb (touches k) es))
                  (PyDict.keys (_header_map s))))%nat.
Proof.
  revert s. induction es as [|e es IH]; intros s Hnd.
  - simpl. unfold __len__, PyDict.len, PyDict.keys.
    rewrite filter_all by reflexivity. now rewrite length_map.
  - cbn [map run fold_left]. fold (run (map edit_op es) (exec (edit_op e) s)).
    destruct e as [d|k]; cbn [edit_op latest_live existsb touches].
    + rewrite IH, exec_append_keys;
        [|rewrite exec_append_keys;
          destruct (PyDict.mem (doc_id d) (_header_map s)) eqn:Hm; auto;
          apply NoDup_snoc; auto; intros Hin;
          apply PyDictFacts.mem_In in Hin; congruence].
      destruct (PyDict.mem (doc_id d) (_header_map s)) eqn:Hm.
      * apply PyDictFacts.mem_In in Hm.
        rewrite (filter_length_split _ (doc_id d) _ Hnd Hm).
        assert (Hext : forall k,
                   negb (String.eqb (doc_id d) k)
                   && negb (existsb (touches k) es) =
                   negb (String.eqb k (doc_id d) || existsb (touches k) es)).
        { intros k. rewrite (String.eqb_sym k). now rewrite negb_orb. }
        rewrite (filter_ext _ _ Hext).
        destruct (existsb (touches (doc_id d)) es); simpl; lia.
      * assert (Hnot : ~ In (doc_id d) (PyDict.keys (_header_map s))).
        { intros Hin. apply PyDictFacts.mem_In in Hin. congruence. }
        rewrite filter_app, length_app. simpl.
        assert (Hext : forall k,
                   negb (String.eqb k (doc_id d) || existsb (touches k) es) =
                   negb (String.eqb (doc_id d) k)
                   && negb (existsb (touches k) es)).
        { intros k. rewrite (String.eqb_sym k). now rewrite negb_orb. }
        rewrite (filter_ext _ _ Hext), (filter_absent _ _ _ Hnot).
        destruct (existsb (touches (doc_id d)) es); simpl; lia.
    + rewrite IH, exec_delete_keys;
        [|rewrite exec_delete_keys; now apply NoDup_filter_keys].
      rewrite filter_filter. f_equal. f_equal. apply filter_ext. intros x.
      rewrite (String.eqb_sym x). now rewrite negb_orb.
Qed.

(** C5 (as the code has it): after any sequence of appends and deletions by
    key on a store whose live mapping was empty, the reported size is the
    number of appended records whose key has been neither deleted nor
    appended again since. *)
Theorem len_counts_latest_live (es : list edit) (s : store) :
  _header_map s = [] ->
  __len__ (run (map edit_op es) s) = latest_live es.
Proof.
  intros Hs. rewrite latest_live_from by (rewrite Hs; constructor).
  rewrite Hs. simpl. lia.
Qed.

(** ** The keys of the live mapping *)

Lemma In_set (V : Type) (k : string) (v : V) (d : PyDict.t V) (x : string * V) :
  In x (PyDict.set k v d) -> x = (k, v) \/ In x d.
Proof.
  induction d as [|[k' v'] d IH]; simpl.
  - intros [<-|[]]. now left.
  - destruct (String.eqb_spec k k') as [->|Hne]; simpl.
    + intros [<-|H]; auto.
    + intros [<-|H]; auto. destruct (IH H); auto.
Qed.

Lemma length_set (V : Type) (k : string) (v : V) (d : PyDict.t V) :
  (length (PyDict.set k v d) <= S (length d))%nat.
Proof.
  induction d as [|[k' v'] d IH]; simpl; [lia|].
  destruct (String.eqb k k'); simpl; lia.
Qed.

Lemma length_set_mem (V : Type) (k : string) (v : V) (d : PyDict.t V) :
  PyDict.mem k d = true -> length (PyDict.set k v d) = length d.
Proof.
  unfold PyDict.mem. induction d as [|[k' v'] d IH]; simpl; [discriminate|].
  destruct (String.eqb k k'); simpl; auto.
Qed.

Lemma In_remove (V : Type) (k : string) (d : PyDict.t V) (x : string * V) :
  In x (PyDict.remove k d) -> In x d.
Proof. unfold PyDict.remove. intros H. now apply filter_In in H. Qed.

Lemma length_remove_le (V : Type) (k : string) (d : PyDict.t V) :
  (length (PyDict.remove k d) <= length d)%nat.
Proof.
  induction d as [|[k' v'] d IH]; simpl; [lia|].
  destruct (String.eqb k k'); simpl; lia.
Qed.

Lemma length_remove_mem (V : Type) (k : string) (d : PyDict.t V) :
  PyDict.mem k d = true -> (S (length (PyDict.remove k d)) <= length d)%nat.
Proof.
  unfold PyDict.mem. induction d as [|[k' v'] d IH]; simpl; [discriminate|].
  destruct (String.eqb k k') eqn:E; simpl.
  - intros _. pose proof (length_remove_le _ k d).
    unfold PyDict.remove in *. lia.
  - intros H. specialize (IH H). unfold PyDict.remove in *. lia.
Qed.

Lemma In_keys (V : Type) (k : string) (v : V) (d : PyDict.t V) :
  In (k, v) d -> In k (PyDict.keys d).
Proof. intros H. unfold PyDict.keys. now apply (in_map fst) in H. Qed.

Lemma keys_In (V : Type) (k : string) (d : PyDict.t V) :
  In k (PyDict.keys d) -> exists v, In (k, v) d.
Proof.
  unfold PyDict.keys. intros H. apply in_map_iff in H as [[k' v] [<- H]].
  now exists v.
Qed.

Lemma get_In (V : Type) (k : string) (v : V) (d : PyDict.t V) :
  PyDict.get k d = Some v -> In (k, v) d.
Proof.
  induction d as [|[k' v'] d IH]; simpl; [discriminate|].
  destruct (String.eqb_spec k k') as [->|Hne]; auto.
  intros [= ->]. now left.
Qed.

Lemma In_enumerate (A : Type) (l : list A) (i : nat) (x : A) :
  In (i, x) (enumerate l) -> (i < length l)%nat /\ In x l.
Proof.
  unfold enumerate. intros H. split.
  - apply in_combine_l in H. apply in_seq in H. lia.
  - now apply in_combine_r in H.
Qed.

Local Abbreviation load_step :=
  (fun (d : PyDict.t pos_info) (ir : nat * header_entry) =>
     let '(idx, r) := ir in
     if is_none_entry r then d
     else PyDict.set (he_key r)
                     (idx, he_page_offset r, he_start r, he_end r) d).

Lemma load_fold_inv (l : list (nat * header_entry)) (acc : PyDict.t pos_info) :
  (forall k o p r e,
      In (k, (o, p, r, e)) (fold_left load_step l acc) ->
      In (k, (o, p, r, e)) acc \/
      exists ent, In (o, ent) l /\ k = he_key ent) /\
  (length (fold_left load_step l acc) <= length acc + length l)%nat.
Proof.
  revert acc. induction l as [|[idx ent] l IH]; intros acc; simpl.
  - split; [auto | lia].
  - destruct (is_none_entry ent).
    + destruct (IH acc) as [H1 H2]. split; [|lia].
      intros k o p r e Hin. destruct (H1 _ _ _ _ _ Hin) as [?|(x & Hx & ->)];
        auto. right. exists x. auto.
    + destruct (IH (PyDict.set (he_key ent)
                      (idx, he_page_offset ent, he_start ent, he_end ent) acc))
        as [H1 H2].
      split.
      * intros k o p r e Hin.
        destruct (H1 _ _ _ _ _ Hin) as [Hs|(x & Hx & ->)].
        -- apply In_set in Hs as [Heq|?]; auto.
           injection Heq as -> -> _ _ _. right. exists ent. auto.
        -- right. exists x. auto.
      * pose proof (length_set _ (he_key ent)
                      (idx, he_page_offset ent, he_start ent, he_end ent) acc).
        unfold PyDict.t, pos_info in *. lia.
Qed.

Lemma load_header_map_inv (h : list header_entry) :
  (forall k o p r e,
      In (k, (o, p, r, e)) (load_header_map h) ->
      (o < length h)%nat /\ exists ent, In ent h /\ k = he_key ent) /\
  (length (load_header_map h) <= length h)%nat.
Proof.
  destruct (load_fold_inv (enumerate h) []) as [H1 H2]. split.
  - intros k o p r e Hin. destruct (H1 _ _ _ _ _ Hin) as [[]|(x & Hx & ->)].
    apply In_enumerate in Hx as [? ?]. split; auto. now exists x.
  - assert (He : length (enumerate h) = length h).
    { unfold enumerate. rewrite length_combine, length_seq. lia. }
    unfold load_header_map. rewrite He in H2. exact H2.
Qed.

Lemma store_inv_pool (H : list Document) (bp : BufferPoolManager) (s : store) :
  store_inv H s -> store_inv H (set_buffer_pool bp s).
Proof. intros [H1 H2 H3 H4]. constructor; simpl; auto. Qed.

Lemma store_inv_more (H H' : list Document) (s : store) :
  store_inv H s -> store_inv (H ++ H') s.
Proof.
  intros [H1 H2 H3 H4]. constructor; auto.
  - intros e He. destruct (H1 e He) as (d & Hd & Hk).
    exists d. split; auto. apply in_or_app. auto.
  - intros k Hk. destruct (H2 k Hk) as (d & Hd & Hk').
    exists d. split; auto. apply in_or_app. auto.
Qed.

Lemma store_inv_fields (H : list Document) (s s' : store) :
  _header s' = _header s -> _header_map s' = _header_map s ->
  _key_length s' = _key_length s ->
  store_inv H s -> store_inv H s'.
Proof.
  intros E1 E2 E3 [H1 H2 H3 H4].
  constructor; rewrite ?E1, ?E2, ?E3; auto.
Qed.

Lemma _load_header_body_fields (mode : open_mode) (s : store) :
  let h := match mode with Mode_a => _header s | Mode_wb => [] end in
  _header (snd (_load_header_body mode s)) = h /\
  _header_map (snd (_load_header_body mode s)) = load_header_map h /\
  _key_length (snd (_load_header_body mode s)) = _key_length s.
Proof.
  intros h. unfold _load_header_body. fold h. simpl.
  destruct (load_header_map h) eqn:E; simpl; auto.
  destruct (_ <? 0); simpl; auto.
Qed.

Lemma store_inv_load (H : list Document) (mode : open_mode) (s : store) :
  store_inv H s -> store_inv H (snd (_load_header_body mode s)).
Proof.
  intros [H1 H2 H3 H4].
  destruct (_load_header_body_fields mode s) as (E1 & E2 & E3).
  set (h := match mode with Mode_a => _header s | Mode_wb => [] end) in *.
  assert (Hh : forall e, In e h -> slot_key_of (_key_length s) H (he_key e)).
  { subst h. destruct mode; auto. intros e []. }
  destruct (load_header_map_inv h) as [L1 L2].
  constructor; rewrite ?E1, ?E2, ?E3; auto.
  - intros k Hk. apply keys_In in Hk as [[[[o p] r] e] Hk].
    destruct (L1 _ _ _ _ _ Hk) as (_ & ent & Hent & ->).
    destruct (Hh ent Hent) as (d & Hd & Hkd). exists d. split; auto.
  - intros k o p r e Hk. now destruct (L1 _ _ _ _ _ Hk).
Qed.

Lemma write_slot_length (idx : nat) (e : header_entry) (h : list header_entry) :
  (idx < length h)%nat -> length (write_slot idx e h) = length h.
Proof.
  intros Hlt. unfold write_slot.
  rewrite (proj2 (Nat.ltb_lt _ _) Hlt), length_app, length_firstn.
  cbn [length]. rewrite length_skipn. lia.
Qed.

Lemma write_slot_In (idx : nat) (e x : header_entry) (h : list header_entry) :
  (idx < length h)%nat -> In x (write_slot idx e h) -> x = e \/ In x h.
Proof.
  intros Hlt. unfold write_slot. rewrite (proj2 (Nat.ltb_lt _ _) Hlt).
  intros Hin. apply in_app_or in Hin as [Hin|[<-|Hin]]; auto; right.
  - rewrite <- (firstn_skipn idx h). apply in_or_app. now left.
  - rewrite <- (firstn_skipn (S idx) h). apply in_or_app. now right.
Qed.

Lemma store_inv_append (H : list Document) (d : Document) (fl ub : bool)
      (s : store) :
  store_inv H s -> store_inv (H ++ [d]) (snd (append d fl ub s)).
Proof.
  intros [H1 H2 H3 H4].
  destruct (append_state d fl ub s) as (_ & Eh & Em & _ & _ & _ & Ek & _).
  constructor; rewrite ?Eh, ?Em, ?Ek.
  - intros e He. apply in_app_or in He as [He|[<-|[]]].
    + destruct (H1 e He) as (x & Hx & Hk). exists x. split; auto.
      apply in_or_app. auto.
    + exists d. split; [apply in_or_app; right; now left | reflexivity].
  - intros k Hk. apply keys_In in Hk as [v Hk].
    apply In_set in Hk as [[= -> _]|Hk].
    + exists d. split; [apply in_or_app; right; now left | now left].
    + apply In_keys in Hk. destruct (H2 k Hk) as (x & Hx & Hk').
      exists x. split; auto. apply in_or_app. auto.
  - intros k o p r e Hk. rewrite length_app. simpl.
    apply In_set in Hk as [[= _ -> _ _ _]|Hk].
    + unfold __len__, PyDict.len. lia.
    + specialize (H3 _ _ _ _ _ Hk). lia.
  - rewrite length_app. simpl.
    pose proof (length_set _ (doc_id d)
                  (__len__ s, Z.quot (_start s) PAGE_SIZE * PAGE_SIZE,
                   _start s mod PAGE_SIZE,
                   _start s mod PAGE_SIZE
                   + Z.of_nat (length (binary_str d))) (_header_map s)).
    unfold PyDict.t, pos_info in *. lia.
Qed.

Lemma store_inv_del_doc (H : list Document) (idx : Z) (key : string)
      (s : store) :
  store_inv H s ->
  (Z.to_nat idx < length (_header s))%nat ->
  slot_key_of (_key_length s) H (np_str (_key_length s) key) ->
  store_inv H (snd (_del_doc idx key s)).
Proof.
  intros Hinv Hidx Hkey. pose proof Hinv as [H1 H2 H3 H4].
  unfold _del_doc. destruct (_ <? 0); [exact Hinv|]. simpl.
  set (tomb := mk_entry (np_str (_key_length s) key) (-1) (-1) (-1)).
  assert (Hslots : forall e, In e (write_slot (Z.to_nat idx) tomb (_header s)) ->
                             slot_key_of (_key_length s) H (he_key e)).
  { intros e He. apply write_slot_In in He as [->|He]; auto. }
  destruct (PyDict.mem key (_header_map s)) eqn:Hm; simpl;
    constructor; simpl; rewrite ?write_slot_length by assumption; auto.
  - intros k Hk. apply H2. apply keys_In in Hk as [v Hk].
    apply In_remove in Hk. now apply In_keys in Hk.
  - intros k o p r e Hk. apply In_remove in Hk. eauto.
  - pose proof (length_remove_le _ key (_header_map s)).
    unfold PyDict.t, pos_info in *. lia.
Qed.

Lemma key_of_slot (kl : nat) (H : list Document) (k : string) :
  key_of kl H k -> slot_key_of kl H (np_str kl k).
Proof.
  intros (d & Hd & [->| ->]); exists d; split; auto. apply np_str_idem.
Qed.

Lemma slot_key_of_slot (kl : nat) (H : list Document) (k : string) :
  slot_key_of kl H k -> slot_key_of kl H (np_str kl k).
Proof.
  intros (d & Hd & ->). exists d. split; auto. apply np_str_idem.
Qed.

Lemma slot_key_of_key (kl : nat) (H : list Document) (k : string) :
  slot_key_of kl H k -> key_of kl H k.
Proof. intros (d & Hd & ->). exists d. auto. Qed.

Lemma _int2str_id_ok (i : Z) (k : string) (s s' : store) :
  _int2str_id i s = (Ok k, s') ->
  s' = s /\ exists e, nth_error (_header s) (Z.to_nat i) = Some e /\
                      k = he_key e.
Proof.
  unfold _int2str_id. destruct (_ <? 0); [discriminate|].
  destruct (nth_error (_header s) (Z.to_nat i)) as [e|] eqn:E; [|discriminate].
  intros [= <- <-]. split; auto. now exists e.
Qed.

Lemma _int2str_id_state (i : Z) (s : store) : snd (_int2str_id i s) = s.
Proof.
  unfold _int2str_id. destruct (_ <? 0); auto.
  now destruct (nth_error (_header s) (Z.to_nat i)).
Qed.

Lemma store_inv_del_by_int (H : list Document) (idx : Z) (s : store) :
  store_inv H s ->
  store_inv H (snd ((bind (_int2str_id idx)
                          (fun str_key => _del_doc idx str_key)) s)).
Proof.
  intros Hinv. unfold bind.
  destruct (_int2str_id idx s) as [[k|e] s'] eqn:E.
  - apply _int2str_id_ok in E as (-> & e & He & ->).
    apply store_inv_del_doc; auto.
    + apply nth_error_Some. congruence.
    + apply slot_key_of_slot. apply (inv_slots Hinv).
      eapply nth_error_In; eauto.
  - pose proof (_int2str_id_state idx s) as Hs. rewrite E in Hs.
    simpl in *. now subst.
Qed.

Lemma for_each_inv (A : Type) (I : store -> Prop) (f : A -> M unit) :
  (forall x s, I s -> I (snd (f x s))) ->
  forall xs s, I s -> I (snd (for_each f xs s)).
Proof.
  intros Hf. induction xs as [|x xs IH]; intros s Hs; simpl; auto.
  unfold bind. specialize (Hf x s Hs).
  destruct (f x s) as [[[]|e] s']; simpl in *; auto.
Qed.

Lemma store_inv_delitem (H : list Document) (key : index) (s : store) :
  store_inv H s -> store_inv H (snd (__delitem__ key s)).
Proof.
  intros Hinv. destruct key as [k|i|sl|]; simpl; auto.
  - unfold bind, _str2int_id.
    destruct (PyDict.get k (_header_map s)) as [[[[o p] r] e]|] eqn:E; auto.
    apply store_inv_del_doc; auto.
    + rewrite Nat2Z.id. apply (inv_ord Hinv k o p r e). now apply get_In.
    + apply key_of_slot. apply (inv_keys Hinv).
      apply get_In in E. now apply In_keys in E.
  - now apply store_inv_del_by_int.
  - apply for_each_inv; auto. intros x s' Hs'.
    now apply store_inv_del_by_int.
Qed.

(** ** Setting by ordinal *)

Lemma append_pair (d : Document) (fl ub : bool) (s : store) :
  append d fl ub s = (Ok tt, snd (append d fl ub s)).
Proof. unfold append. now destruct ub. Qed.

Lemma _int2str_id_slot (i : Z) (e : header_entry) (s : store) :
  0 <= i -> nth_error (_header s) (Z.to_nat i) = Some e ->
  _int2str_id i s = (Ok (he_key e), s).
Proof.
  intros Hi He. unfold _int2str_id.
  assert (Hp : (i * _header_entry_size s <? 0) = false).
  { apply Z.ltb_ge. unfold _header_entry_size. nia. }
  now rewrite Hp, He.
Qed.

Lemma __setitem___int (i : Z) (value : Document) (e : header_entry) (s : store) :
  0 <= i < Z.of_nat (__len__ s) ->
  nth_error (_header s) (Z.to_nat i) = Some e ->
  let s1 := snd (append value true true s) in
  let v := (__len__ s, Z.quot (_start s) PAGE_SIZE * PAGE_SIZE,
            _start s mod PAGE_SIZE,
            _start s mod PAGE_SIZE + Z.of_nat (length (binary_str value))) in
  let s3 := set_buffer_pool
              (add_or_update (he_key e) value (buffer_pool s1))
              (set_header_map (PyDict.set (he_key e) v (_header_map s1)) s1) in
  let s4 := set_buffer_pool
              (delete_if_exists (doc_id value) (buffer_pool s3))
              (set_header_map
                 (PyDict.remove (doc_id value) (_header_map s3))
                 (set_header
                    (write_slot (__len__ s)
                       (mk_entry (np_str (_key_length s) (doc_id value))
                                 (-1) (-1) (-1))
                       (_header s3)) s3)) in
  __setitem__ (IInt i) value s =
  if String.eqb (he_key e) (doc_id value) then (Ok tt, s3)
  else (Ok tt, set_buffer_pool
                 (delete_if_exists (doc_id value) (buffer_pool s4)) s4).
Proof.
  intros Hi He s1 v s3 s4.
  destruct (append_state value true true s)
    as (_ & Eh & Em & _ & _ & _ & Ek & _).
  fold s1 in Eh, Em, Ek. fold v in Em.
  assert (Hget : PyDict.get (doc_id value) (_header_map s1) = Some v).
  { rewrite Em. apply PyDictFacts.get_set_same. }
  unfold __setitem__.
  assert (Hrange : (0 <=? i) && (i <? Z.of_nat (__len__ s)) = true).
  { apply andb_true_iff. split; [apply Z.leb_le | apply Z.ltb_lt]; lia. }
  rewrite Hrange. unfold bind at 1.
  rewrite (_int2str_id_slot i e s) by (auto; lia).
  unfold bind at 1. rewrite append_pair. fold s1.
  unfold bind at 1. rewrite Hget.
  unfold bind at 1. unfold modify at 1.
  destruct (String.eqb_spec (he_key e) (doc_id value)) as [Heq|Hne];
    [reflexivity|].
  unfold bind at 1. unfold __delitem__, bind at 1, _str2int_id.
  cbn [_header_map set_buffer_pool set_header_map].
  rewrite PyDictFacts.get_set_other by congruence.
  rewrite Hget. subst v. cbv beta iota.
  rewrite _del_doc_live.
  - reflexivity.
  - cbn [_header_map set_buffer_pool set_header_map]. unfold PyDict.mem.
    rewrite PyDictFacts.get_set_other by congruence. now rewrite Hget.
Qed.

Lemma store_inv_setitem_int (H : list Document) (i : Z) (d : Document)
      (e : header_entry) (s : store) :
  0 <= i < Z.of_nat (__len__ s) ->
  nth_error (_header s) (Z.to_nat i) = Some e ->
  store_inv H s ->
  store_inv (H ++ [d]) (snd (__setitem__ (IInt i) d s)).
Proof.
  intros Hi He Hinv.
  pose proof (store_inv_append H d true true s Hinv) as Hinv1.
  pose proof (inv_len Hinv) as Hlen.
  destruct (append_state d true true s) as (_ & Eh & Em & _ & _ & _ & Ek & _).
  rewrite (__setitem___int i d e s Hi He).
  set (s1 := snd (append d true true s)) in *.
  set (v := (__len__ s, Z.quot (_start s) PAGE_SIZE * PAGE_SIZE,
             _start s mod PAGE_SIZE,
             _start s mod PAGE_SIZE + Z.of_nat (length (binary_str d)))) in *.
  clearbody s1.
  assert (Hmem1 : PyDict.mem (doc_id d) (_header_map s1) = true).
  { unfold PyDict.mem. rewrite Em. now rewrite PyDictFacts.get_set_same. }
  assert (Hh1 : length (_header s1) = S (length (_header s))).
  { rewrite Eh, length_app. simpl. lia. }
  assert (Hkey : key_of (_key_length s1) (H ++ [d]) (he_key e)).
  { apply slot_key_of_key. rewrite Ek.
    destruct (inv_slots Hinv e (nth_error_In _ _ He)) as (x & Hx & Hk).
    exists x. split; auto. apply in_or_app. auto. }
  assert (Hkeys2 : forall k,
             In k (PyDict.keys (PyDict.set (he_key e) v (_header_map s1))) ->
             key_of (_key_length s1) (H ++ [d]) k).
  { intros k Hk. apply keys_In in Hk as [w Hk].
    apply In_set in Hk as [[= -> _]|Hk]; auto.
    apply (inv_keys Hinv1). now apply In_keys in Hk. }
  assert (Hord2 : forall k o p r e',
             In (k, (o, p, r, e'))
                (PyDict.set (he_key e) v (_header_map s1)) ->
             (o < length (_header s1))%nat).
  { intros k o p r e' Hk. apply In_set in Hk as [[= _ -> _ _ _]|Hk].
    - unfold __len__, PyDict.len. lia.
    - apply (inv_ord Hinv1 _ _ _ _ _ Hk). }
  destruct (String.eqb_spec (he_key e) (doc_id d)) as [Heq|Hne]; cbn [snd].
  - constructor; simpl; auto.
    + apply (inv_slots Hinv1).
    + rewrite Heq, length_set_mem by assumption. apply (inv_len Hinv1).
  - assert (Hslot : (__len__ s < length (_header s1))%nat).
    { unfold __len__, PyDict.len. lia. }
    constructor; simpl; rewrite ?write_slot_length by assumption.
    + intros x Hx. apply write_slot_In in Hx as [->|Hx]; auto.
      * exists d. split; [apply in_or_app; right; now left|].
        simpl. now rewrite ?Ek.
      * apply (inv_slots Hinv1 x Hx).
    + intros k Hk. apply Hkeys2. apply keys_In in Hk as [w Hk].
      apply In_remove in Hk. now apply In_keys in Hk.
    + intros k o p r e' Hk. apply In_remove in Hk. eauto.
    + assert (Hmem2 : PyDict.mem (doc_id d)
                        (PyDict.set (he_key e) v (_header_map s1)) = true).
      { unfold PyDict.mem.
        rewrite PyDictFacts.get_set_other by congruence. exact Hmem1. }
      pose proof (length_remove_mem _ _ _ Hmem2).
      pose proof (length_set _ (he_key e) v (_header_map s1)).
      pose proof (inv_len Hinv1).
      assert (length (_header_map s1) <= S (length (_header_map s)))%nat.
      { rewrite Em. apply length_set. }
      unfold PyDict.t, pos_info in *. lia.
Qed.

Lemma store_inv_nil (H : list Document) (s : store) :
  store_inv H s -> store_inv (H ++ []) s.
Proof. now rewrite app_nil_r. Qed.

Lemma store_inv_setitem (H : list Document) (key : index) (d : Document)
      (s : store) :
  store_inv H s ->
  store_inv (H ++ appended_by (Op_setitem key d) s)
            (snd (__setitem__ key d s)).
Proof.
  intros Hinv. destruct key as [k|i|sl|]; cbn [appended_by].
  - unfold __setitem__, bind. rewrite append_pair. unfold modify. cbn [snd].
    apply store_inv_pool. now apply store_inv_append.
  - destruct ((0 <=? i) && (i <? Z.of_nat (__len__ s))) eqn:Hr.
    + apply andb_true_iff in Hr as [Hr1 Hr2].
      apply Z.leb_le in Hr1. apply Z.ltb_lt in Hr2.
      destruct (_int2str_id i s) as [[k|x] s'] eqn:E; cbn [fst].
      * apply _int2str_id_ok in E as (_ & e & He & _).
        apply (store_inv_setitem_int H i d e s); auto.
      * pose proof (_int2str_id_state i s) as Hs. rewrite E in Hs.
        simpl in Hs. subst s'.
        assert (Hrange : (0 <=? i) && (i <? Z.of_nat (__len__ s)) = true).
        { apply andb_true_iff.
          split; [now apply Z.leb_le | now apply Z.ltb_lt]. }
        unfold __setitem__. rewrite Hrange. unfold bind at 1. rewrite E.
        now apply store_inv_nil.
    + simpl. rewrite Hr. now apply store_inv_nil.
  - now apply store_inv_nil.
  - now apply store_inv_nil.
Qed.

Lemma store_inv_extend (H : list Document) (ds : list Document) (s : store) :
  store_inv H s -> store_inv (H ++ ds) (snd (extend ds s)).
Proof.
  revert H s. induction ds as [|d ds IH]; intros H s Hinv.
  - now apply store_inv_nil.
  - unfold extend. cbn [for_each]. unfold bind at 1. unfold bind at 1.
    rewrite append_pair. unfold modify at 1.
    replace (H ++ d :: ds) with ((H ++ [d]) ++ ds)
      by (rewrite <- app_assoc; reflexivity).
    apply IH. apply store_inv_pool. now apply store_inv_append.
Qed.

Lemma store_inv_exec (H : list Document) (o : op) (s : store) :
  store_inv H s -> store_inv (H ++ appended_by o s) (exec o s).
Proof.
  intros Hinv. destruct o as [d|ds|key d|key| |]; cbn [exec].
  - now apply store_inv_append.
  - now apply store_inv_extend.
  - now apply store_inv_setitem.
  - apply store_inv_nil.
    destruct key; cbn [appended_by]; now apply store_inv_delitem.
  - apply store_inv_nil. unfold reload, bind, modify.
    pose proof (store_inv_load H Mode_a s Hinv) as Hl.
    destruct (_load_header_body Mode_a s) as [[[]|x] s']; simpl in *; auto.
    now apply store_inv_pool.
  - apply store_inv_nil. now apply store_inv_load.
Qed.

Lemma store_inv_run (ops : list op) (H : list Document) (s : store) :
  store_inv H s -> store_inv (H ++ ever_appended ops s) (run ops s).
Proof.
  revert H s. induction ops as [|o ops IH]; intros H s Hinv.
  - now apply store_inv_nil.
  - cbn [ever_appended run fold_left]. rewrite app_assoc.
    apply IH. now apply store_inv_exec.
Qed.

(** The key width of a store never changes. *)

Lemma bind_key_length (A B : Type) (m : M A) (f : A -> M B) :
  (forall s, _key_length (snd (m s)) = _key_length s) ->
  (forall a s, _key_length (snd (f a s)) = _key_length s) ->
  forall s, _key_length (snd (bind m f s)) = _key_length s.
Proof.
  intros Hm Hf s. unfold bind. specialize (Hm s).
  destruct (m s) as [[a|e] s']; simpl in *; auto.
  now rewrite Hf.
Qed.

Lemma for_each_key_length (A : Type) (f : A -> M unit) :
  (forall x s, _key_length (snd (f x s)) = _key_length s) ->
  forall xs s, _key_length (snd (for_each f xs s)) = _key_length s.
Proof.
  intros Hf xs. induction xs as [|x xs IH]; intros s; simpl; auto.
  apply bind_key_length; auto.
Qed.

Lemma append_key_length (d : Document) (fl ub : bool) (s : store) :
  _key_length (snd (append d fl ub s)) = _key_length s.
Proof. unfold append. now destruct ub. Qed.

Lemma _del_doc_key_length (idx : Z) (k : string) (s : store) :
  _key_length (snd (_del_doc idx k s)) = _key_length s.
Proof.
  unfold _del_doc. destruct (_ <? 0); simpl; auto.
  now destruct (PyDict.mem k (_header_map s)).
Qed.

Lemma _int2str_id_key_length (i : Z) (s : store) :
  _key_length (snd (_int2str_id i s)) = _key_length s.
Proof. now rewrite _int2str_id_state. Qed.

Lemma __delitem___key_length (key : index) (s : store) :
  _key_length (snd (__delitem__ key s)) = _key_length s.
Proof.
  destruct key as [k|i|sl|]; simpl; auto.
  - apply bind_key_length.
    + intros s0. unfold _str2int_id.
      now destruct (PyDict.get k (_header_map s0)) as [[[[? ?] ?] ?]|].
    + intros a s0. apply _del_doc_key_length.
  - apply bind_key_length.
    + apply _int2str_id_key_length.
    + intros a s0. apply _del_doc_key_length.
  - apply for_each_key_length. intros x s0. apply bind_key_length.
    + apply _int2str_id_key_length.
    + intros a s1. apply _del_doc_key_length.
Qed.

Lemma __setitem___key_length (key : index) (d : Document) (s : store) :
  _key_length (snd (__setitem__ key d s)) = _key_length s.
Proof.
  destruct key as [k|i|sl|]; simpl; auto.
  destruct ((0 <=? i) && (i <? Z.of_nat (__len__ s))); auto.
  apply bind_key_length; [apply _int2str_id_key_length|].
  intros k s0. apply bind_key_length; [intros; apply append_key_length|].
  intros _ s1. apply bind_key_length.
  { intros s2. now destruct (PyDict.get (doc_id d) (_header_map s2)). }
  intros _ s2. apply bind_key_length; auto.
  intros _ s3. destruct (String.eqb k (doc_id d)); auto.
  apply bind_key_length; auto.
  intros s4. apply (__delitem___key_length (IStr (doc_id d))).
Qed.

Lemma exec_key_length (o : op) (s : store) :
  _key_length (exec o s) = _key_length s.
Proof.
  destruct o as [d|ds|key d|key| |]; cbn [exec].
  - apply append_key_length.
  - apply for_each_key_length. intros d s0.
    apply bind_key_length; [intros; apply append_key_length | auto].
  - apply __setitem___key_length.
  - apply __delitem___key_length.
  - apply bind_key_length; auto.
    intros s0. apply (_load_header_body_fields Mode_a s0).
  - apply (_load_header_body_fields Mode_wb s).
Qed.

Lemma run_key_length (ops : list op) (s : store) :
  _key_length (run ops s) = _key_length s.
Proof.
  revert s. induction ops as [|o ops IH]; intros s; auto.
  cbn [run fold_left]. fold (run ops (exec o s)).
  now rewrite IH, exec_key_length.
Qed.

Lemma store_inv_init (path : string) (kl n : nat) :
  store_inv [] (snd (__init__ path kl n [] [])).
Proof. constructor; simpl; auto; intros; contradiction. Qed.

(** C7 (as the code has it): deleting a live key removes it from the live
    mapping and leaves the body file, the position of its handle and the
    write cursor as they were, rewriting in the header file only the slot at
    the ordinal recorded for the key; and in every store reached from a
    newly created one by appends, extends, item assignments, deletions,
    reloads and clears, each key of the live mapping is the key of a record
    appended on the way, as given or as the fixed-width header keeps it. *)
Theorem tombstone_frame_and_keys :
  (forall (k : string) (s : store) (o : nat) (p r e : Z),
      PyDict.get k (_header_map s) = Some (o, p, r, e) ->
      let s' := snd (__delitem__ (IStr k) s) in
      _header_map s' = PyDict.remove k (_header_map s) /\
      PyDict.mem k (_header_map s') = false /\
      _body s' = _body s /\ _body_pos s' = _body_pos s /\
      _start s' = _start s /\
      _header s' = write_slot o (mk_entry (np_str (_key_length s) k)
                                          (-1) (-1) (-1)) (_header s) /\
      (forall j, j <> o -> (j < length (_header s))%nat ->
                 nth_error (_header s') j = nth_error (_header s) j)) /\
  (forall (path : string) (kl n : nat) (ops : list op),
      let s0 := snd (__init__ path kl n [] []) in
      forall k, In k (PyDict.keys (_header_map (run ops s0))) ->
                exists d, In d (ever_appended ops s0) /\
                          (k = doc_id d \/ k = np_str kl (doc_id d))).
Proof.
  split.
  - intros k s o p r e Hget s'.
    assert (Hk : PyDict.mem k (_header_map s) = true).
    { unfold PyDict.mem. now rewrite Hget. }
    destruct (__delitem___live k s Hk) as (o' & p' & r' & e' & Hget' & Hd).
    rewrite Hget in Hget'. injection Hget' as <- <- <- <-.
    subst s'. rewrite Hd, (_del_doc_live o k s Hk). simpl.
    repeat split.
    + apply PyDictFacts.mem_remove_same.
    + intros j Hj Hlt. now apply write_slot_other.
  - intros path kl n ops s0 k Hk.
    pose proof (store_inv_run ops [] s0 (store_inv_init path kl n)) as Hinv.
    destruct (inv_keys Hinv k Hk) as (d & Hd & Hkd).
    rewrite run_key_length in Hkd. exists d. split; auto.
Qed.

Lemma write_slot_same (o : nat) (e : header_entry) (h : list header_entry) :
  (o < length h)%nat -> nth_error (write_slot o e h) o = Some e.
Proof.
  intros Ho. unfold write_slot. rewrite (proj2 (Nat.ltb_lt _ _) Ho).
  rewrite nth_error_app2 by (rewrite length_firstn; lia).
  rewrite length_firstn, Nat.min_l by lia. now rewrite Nat.sub_diag.
Qed.




Lemma pool_get_delete_other (k k' : string) (bp : BufferPoolManager) :
  k <> k' -> pool_get k (delete_if_exists k' bp) = pool_get k bp.
Proof. intros Hne. now apply PyDictFacts.get_remove_other. Qed.

Lemma load_header_map_live (h : list header_entry) (e : header_entry) :
  In e h -> is_none_entry e = false -> load_header_map h <> [].
Proof.
  induction h as [|l h IH] using rev_ind; intros Hin He; [contradiction|].
  rewrite load_header_map_snoc.
  destruct (is_none_entry l) eqn:El; [|apply set_not_nil].
  apply in_app_or in Hin as [Hin|[->|[]]]; [now apply IH | congruence].
Qed.

(** C3 (a defect of the code): for an ordinal [i] within [0, len) whose
    header slot holds the key [old], and a record [r] whose key differs from
    [old], [set(i, r)] returns normally and appends [r] in a new slot at the
    end of the header file, but the deletion it then runs is that of the key
    of [r].  In memory [old] maps to the new entry and the key of [r] is not
    live.  In the header file the slot of [old] is left as it was and the
    tombstone is written at the ordinal recorded for the key of [r], which
    is [len]: when the header has [len] slots this is the slot just
    appended, so the file holds no live entry for [r], a reload gives the
    live mapping of the header as it was before the assignment and, slot [i]
    being live, raises [OSError] from its seek; when the header has more
    than [len] slots the tombstone overwrites slot [len] of the old header
    and the slot just appended stays live. *)
Theorem setitem_ordinal_tombstones_new_record
    (i : Z) (value : Document) (e : header_entry) (s : store) :
  0 <= i < Z.of_nat (__len__ s) ->
  nth_error (_header s) (Z.to_nat i) = Some e ->
  he_key e <> doc_id value ->
  (__len__ s <= length (_header s))%nat ->
  let old := he_key e in
  let s' := snd (__setitem__ (IInt i) value s) in
  let p := Z.quot (_start s) PAGE_SIZE * PAGE_SIZE in
  let r := _start s mod PAGE_SIZE in
  let L := Z.of_nat (length (binary_str value)) in
  let fresh := mk_entry (np_str (_key_length s) (doc_id value)) p r (r + L) in
  let tomb := mk_entry (np_str (_key_length s) (doc_id value)) (-1) (-1) (-1) in
  fst (__setitem__ (IInt i) value s) = Ok tt /\
  PyDict.get old (_header_map s') = Some (__len__ s, p, r, r + L) /\
  __contains__ (doc_id value) s' = false /\
  _header s' = write_slot (__len__ s) tomb (_header s ++ [fresh]) /\
  nth_error (_header s') (Z.to_nat i) = Some e /\
  nth_error (_header s') (__len__ s) = Some tomb /\
  (__len__ s = length (_header s) ->
   _header s' = _header s ++ [tomb] /\
   _header_map (snd (reload s')) = load_header_map (_header s) /\
   (is_none_entry e = false -> fst (reload s') = Raise OSError)) /\
  ((__len__ s < length (_header s))%nat ->
   nth_error (_header s') (length (_header s)) = Some fresh).
Proof.
  intros Hi He Hne Hlen old s' p r L fresh tomb.
  destruct (append_state value true true s)
    as (_ & Eh & Em & _ & _ & _ & Ek & _).
  fold p r L fresh in Eh. fold p r L in Em.
  pose proof (__setitem___int i value e s Hi He) as Hset.
  cbv zeta in Hset. fold p r L tomb old in Hset.
  set (s1 := snd (append value true true s)) in *. clearbody s1.
  assert (Hi' : (Z.to_nat i < length (_header s))%nat).
  { apply nth_error_Some. congruence. }
  assert (Hh1 : length (_header s1) = S (length (_header s))).
  { rewrite Eh, length_app. simpl. lia. }
  assert (Hneb : String.eqb old (doc_id value) = false).
  { now apply String.eqb_neq. }
  rewrite Hneb in Hset.
  assert (Hhdr : _header s' = write_slot (__len__ s) tomb (_header s ++ [fresh])).
  { subst s'. rewrite Hset. cbn [snd _header set_buffer_pool set_header_map
                                 set_header]. now rewrite Eh. }
  assert (Hmap : _header_map s'
                 = PyDict.remove (doc_id value)
                     (PyDict.set old (__len__ s, p, r, r + L) (_header_map s1))).
  { subst s'. rewrite Hset. reflexivity. }
  assert (Hslot : (__len__ s < length (_header s ++ [fresh]))%nat).
  { rewrite length_app. simpl. lia. }
  assert (Hilen : (Z.to_nat i < __len__ s)%nat) by lia.
  split; [now rewrite Hset|].
  split.
  { rewrite Hmap, PyDictFacts.get_remove_other by assumption.
    apply PyDictFacts.get_set_same. }
  split.
  { unfold __contains__. rewrite Hmap. apply PyDictFacts.mem_remove_same. }
  split; [exact Hhdr|].
  split.
  { rewrite Hhdr, write_slot_other; try lia.
    rewrite nth_error_app1 by lia. exact He. }
  split; [rewrite Hhdr; now apply write_slot_same|].
  split.
  - intros Hfull.
    assert (Hh' : _header s' = _header s ++ [tomb]).
    { rewrite Hhdr, Hfull. unfold write_slot.
      rewrite (proj2 (Nat.ltb_lt _ _)) by (rewrite length_app; simpl; lia).
      rewrite firstn_app, firstn_all, Nat.sub_diag.
      change (firstn 0 [fresh]) with (@nil header_entry).
      rewrite skipn_all2 by (rewrite length_app; simpl; lia).
      now rewrite !app_nil_r. }
    assert (Hload : load_header_map (_header s') = load_header_map (_header s)).
    { rewrite Hh', load_header_map_snoc. reflexivity. }
    split; [exact Hh'|].
    destruct (reload_files s') as (_ & _ & F3).
    split; [now rewrite F3|].
    intros Hlive.
    rewrite reload_outcome, _load_header_body_outcome, Hload.
    destruct (load_header_map (_header s)) eqn:E.
    + exfalso. apply (load_header_map_live (_header s) e); auto.
      eapply nth_error_In; eauto.
    + rewrite Hh', last_last. reflexivity.
  - intros Hless. rewrite Hhdr, write_slot_other; try lia.
    + rewrite nth_error_app2 by lia. now rewrite Nat.sub_diag.
    + rewrite length_app. simpl. lia.
Qed.

(** ** Disjoint byte ranges fit in the file *)

Lemma sum_below_add (n : nat) (f g : nat -> Z) :
  sum_below n (fun x => f x + g x) = sum_below n f + sum_below n g.
Proof. induction n as [|n IH]; simpl; lia. Qed.

Lemma sum_below_in_range (n : nat) (a b : Z) :
  0 <= a -> a <= b ->
  sum_below n (in_range (a, b)) = Z.min b (Z.of_nat n) - Z.min a (Z.of_nat n).
Proof.
  intros Ha Hab. induction n as [|n IH]; simpl sum_below; [lia|].
  rewrite IH. unfold in_range. simpl fst. simpl snd.
  destruct (Z.leb_spec a (Z.of_nat n)), (Z.ltb_spec (Z.of_nat n) b);
    simpl; lia.
Qed.

Lemma sum_below_le (n : nat) (f : nat -> Z) :
  (forall x, f x <= 1) -> sum_below n f <= Z.of_nat n.
Proof.
  intros Hf. induction n as [|n IH]; simpl sum_below; [lia|].
  specialize (Hf n). lia.
Qed.

Lemma sum_below_cover (n : nat) (l : list (Z * Z)) :
  Forall (fun ab => 0 <= fst ab /\ fst ab <= snd ab /\ snd ab <= Z.of_nat n) l ->
  sum_below n (cover l) = total_length l.
Proof.
  induction 1 as [|[a b] l (Ha & Hab & Hb) _ IH]; simpl.
  - induction n; simpl; lia.
  - simpl in *. rewrite sum_below_add, IH, sum_below_in_range by lia. lia.
Qed.

Lemma cover_zero (l : list (Z * Z)) (x : nat) :
  Forall (fun ab => in_range ab x = 0) l -> cover l x = 0.
Proof. induction 1 as [|ab l H _ IH]; simpl; lia. Qed.

Lemma cover_le_1 (l : list (Z * Z)) (x : nat) :
  ForallOrdPairs disjoint l -> cover l x <= 1.
Proof.
  induction 1 as [|ab l Hd _ IH]; simpl; [lia|].
  unfold in_range at 1.
  destruct ((fst ab <=? Z.of_nat x) && (Z.of_nat x <? snd ab)) eqn:E; [|lia].
  apply andb_true_iff in E as [E1 E2].
  apply Z.leb_le in E1. apply Z.ltb_lt in E2.
  rewrite cover_zero; [lia|].
  eapply Forall_impl; [|exact Hd]. intros cd [Hc|Hc]; unfold in_range.
  - destruct (Z.leb_spec (fst cd) (Z.of_nat x)); simpl; auto. lia.
  - destruct (Z.ltb_spec (Z.of_nat x) (snd cd)); [lia|].
    now rewrite andb_false_r.
Qed.

Lemma disjoint_ranges_fit (n : nat) (l : list (Z * Z)) :
  Forall (fun ab => 0 <= fst ab /\ fst ab <= snd ab /\ snd ab <= Z.of_nat n) l ->
  ForallOrdPairs disjoint l ->
  total_length l <= Z.of_nat n.
Proof.
  intros Hin Hd. rewrite <- (sum_below_cover n l Hin).
  apply sum_below_le. intros x. now apply cover_le_1.
Qed.

(** ** Compaction *)

Lemma write_at_end (data b : list byte) : write_at (length b) data b = b ++ data.
Proof.
  unfold write_at. destruct data as [|x data]; [now rewrite app_nil_r|].
  rewrite Nat.leb_refl, firstn_all, skipn_all2 by lia.
  now rewrite app_nil_r.
Qed.

Lemma quot_mod_sum (x : Z) :
  0 < PAGE_SIZE -> 0 <= x ->
  Z.quot x PAGE_SIZE * PAGE_SIZE + x mod PAGE_SIZE = x /\
  0 <= Z.quot x PAGE_SIZE * PAGE_SIZE /\
  0 <= x mod PAGE_SIZE < PAGE_SIZE /\
  (Z.quot x PAGE_SIZE * PAGE_SIZE) mod PAGE_SIZE = 0.
Proof.
  intros Hp Hx. rewrite Z.quot_div_nonneg by lia.
  pose proof (Z.div_mod x PAGE_SIZE). pose proof (Z.mod_pos_bound x PAGE_SIZE Hp).
  pose proof (Z.div_pos x PAGE_SIZE Hx Hp).
  repeat split; try lia; try nia. apply Z.mod_mul. lia.
Qed.

Lemma extend_cons (d : Document) (ds : list Document) (t : store) :
  extend (d :: ds) t =
  extend ds (set_buffer_pool
               (add_or_update (doc_id d) d
                  (buffer_pool (snd (append d false true t))))
               (snd (append d false true t))).
Proof.
  unfold extend. cbn [for_each]. unfold bind at 1. unfold bind at 1.
  rewrite append_pair. reflexivity.
Qed.

Lemma extend_state (ds : list Document) (t : store) :
  0 < PAGE_SIZE ->
  _start t = Z.of_nat (length (_body t)) ->
  _body_pos t = length (_body t) ->
  fst (extend ds t) = Ok tt /\
  _header (snd (extend ds t)) =
  _header t ++ layout (_key_length t) (_start t) ds /\
  _body (snd (extend ds t)) = _body t ++ concat (map binary_str ds) /\
  _key_length (snd (extend ds t)) = _key_length t.
Proof.
  intros Hp. revert t. induction ds as [|d ds IH]; intros t Hst Hpos.
  - simpl. now rewrite !app_nil_r.
  - rewrite extend_cons.
    destruct (append_state d false true t)
      as (_ & Eh & _ & Es & Eb & Ep & Ek & _).
    set (t1 := snd (append d false true t)) in *. clearbody t1.
    set (t2 := set_buffer_pool (add_or_update (doc_id d) d (buffer_pool t1)) t1).
    destruct (quot_mod_sum (_start t) Hp ltac:(lia)) as (Hsum & _).
    rewrite Hpos, write_at_end in Eb.
    assert (Hst2 : _start t2 = Z.of_nat (length (_body t2))).
    { subst t2. simpl. rewrite Es, Eb, length_app. lia. }
    assert (Hpos2 : _body_pos t2 = length (_body t2)).
    { subst t2. simpl. rewrite Ep, Eb, length_app. lia. }
    destruct (IH t2 Hst2 Hpos2) as (I1 & I2 & I3 & I4).
    assert (Hs2 : _start t2 = _start t + Z.of_nat (length (binary_str d))).
    { subst t2. simpl. rewrite Es. lia. }
    rewrite I1, I2, I3, I4, Hs2. subst t2. simpl.
    rewrite Eh, Eb, Ek, <- !app_assoc. auto.
Qed.

Lemma set_absent (V : Type) (k : string) (v : V) (d : PyDict.t V) :
  PyDict.get k d = None -> PyDict.set k v d = d ++ [(k, v)].
Proof.
  induction d as [|[k' v'] d IH]; simpl; auto.
  destruct (String.eqb k k'); [discriminate|].
  intros H. now rewrite IH.
Qed.

Lemma get_None_keys (V : Type) (k : string) (d : PyDict.t V) :
  ~ In k (PyDict.keys d) -> PyDict.get k d = None.
Proof.
  intros Hk. destruct (PyDict.get k d) eqn:E; auto.
  exfalso. apply Hk. apply PyDictFacts.mem_In. unfold PyDict.mem.
  now rewrite E.
Qed.

Lemma map_snd_enumerate (A : Type) (l : list A) : map snd (enumerate l) = l.
Proof.
  induction l as [|x l IH] using rev_ind; [reflexivity|].
  rewrite enumerate_snoc, map_app, IH. reflexivity.
Qed.

Local Abbreviation live_entry :=
  (fun ie : nat * header_entry =>
     (he_key (snd ie),
      (fst ie, he_page_offset (snd ie), he_start (snd ie), he_end (snd ie)))).

Lemma load_header_map_distinct (h : list header_entry) :
  Forall (fun e => is_none_entry e = false) h ->
  NoDup (map he_key h) ->
  load_header_map h = map live_entry (enumerate h).
Proof.
  induction h as [|l h IH] using rev_ind; intros Hlive Hnd; [reflexivity|].
  apply Forall_app in Hlive as [Hh Hl]. inversion Hl as [|? ? Hl' _]; subst.
  rewrite map_app in Hnd. simpl in Hnd.
  assert (Hnd' : NoDup (map he_key h)) by (eapply NoDup_app_remove_r; eauto).
  assert (Hnot : ~ In (he_key l) (map he_key h)).
  { apply NoDup_remove_2 in Hnd. now rewrite app_nil_r in Hnd. }
  rewrite load_header_map_snoc, Hl', (IH Hh Hnd'), enumerate_snoc, map_app.
  simpl. apply set_absent. apply get_None_keys.
  unfold PyDict.keys. rewrite map_map. simpl.
  rewrite <- (map_map snd he_key), map_snd_enumerate. exact Hnot.
Qed.

Lemma last_Forall (A : Type) (Q : A -> Prop) (l : list A) (d : A) :
  Forall Q l -> Q d -> Q (last l d).
Proof.
  induction 1 as [|x l Hx Hl IH]; intros Hd; simpl; auto.
  destruct l; auto.
Qed.

Lemma _load_header_body_ok (s : store) :
  Forall (fun e => 0 <= he_page_offset e /\ 0 <= he_end e) (_header s) ->
  fst (_load_header_body Mode_a s) = Ok tt.
Proof.
  intros Hall. unfold _load_header_body. simpl.
  destruct (load_header_map (_header s)); simpl; auto.
  assert (H : 0 <= he_page_offset (last (_header s) zero_entry)
              /\ 0 <= he_end (last (_header s) zero_entry)).
  { apply (last_Forall _ (fun e => 0 <= he_page_offset e /\ 0 <= he_end e));
      auto. simpl. lia. }
  destruct (Z.ltb_spec (he_page_offset (last (_header s) zero_entry)
                        + he_end (last (_header s) zero_entry)) 0);
    [lia | reflexivity].
Qed.

Lemma reload_ok (s : store) :
  Forall (fun e => 0 <= he_page_offset e /\ 0 <= he_end e) (_header s) ->
  fst (reload s) = Ok tt /\
  buffer_pool (snd (reload s)) = pool_clear (buffer_pool s).
Proof.
  intros Hall. pose proof (_load_header_body_ok s Hall) as Hok.
  unfold reload, bind, modify.
  assert (Hbp : buffer_pool (snd (_load_header_body Mode_a s)) = buffer_pool s).
  { unfold _load_header_body. simpl.
    destruct (load_header_map (_header s)); simpl; auto.
    destruct (_ <? 0); reflexivity. }
  destruct (_load_header_body Mode_a s) as [[[]|e] s1]; simpl in *;
    [|discriminate].
  now rewrite Hbp.
Qed.

Lemma layout_facts (kl : nat) (ds : list Document) (start : Z) :
  0 < PAGE_SIZE -> 0 <= start ->
  Forall (fun e => 0 <= he_page_offset e /\ 0 <= he_end e) (layout kl start ds)
  /\ Forall (fun e => is_none_entry e = false) (layout kl start ds)
  /\ map he_key (layout kl start ds) = map (fun d => np_str kl (doc_id d)) ds
  /\ length (layout kl start ds) = length ds.
Proof.
  intros Hp. revert start. induction ds as [|d ds IH]; intros start Hs; simpl.
  - repeat split; constructor.
  - destruct (quot_mod_sum start Hp Hs) as (_ & Hq & Hm & _).
    destruct (IH (start + Z.of_nat (length (binary_str d))) ltac:(lia))
      as (I1 & I2 & I3 & I4).
    repeat split.
    + constructor; auto. simpl. lia.
    + constructor; auto. unfold is_none_entry. simpl.
      destruct (Z.eqb_spec (Z.quot start PAGE_SIZE * PAGE_SIZE) (-1));
        [lia | reflexivity].
    + now rewrite I3.
    + now rewrite I4.
Qed.

Lemma read_region (body pre mid post : list byte) (p r e : Z) :
  body = pre ++ mid ++ post ->
  0 <= p -> p mod PAGE_SIZE = 0 -> 0 <= r ->
  p + r = Z.of_nat (length pre) ->
  e = r + Z.of_nat (length mid) ->
  mid <> [] ->
  exists m, mmap_bytes body p e = Ok m /\ slice_from r m = mid.
Proof.
  intros Hb Hp Hal Hr Hpre He Hmid.
  assert (Hlen : (0 < length mid)%nat) by (destruct mid; simpl; [congruence|lia]).
  exists (firstn (Z.to_nat e) (skipn (Z.to_nat p) body)). split.
  - unfold mmap_bytes.
    assert (Hsize : Z.of_nat (length body)
                    = Z.of_nat (length pre) + Z.of_nat (length mid)
                      + Z.of_nat (length post)).
    { rewrite Hb, !length_app. lia. }
    destruct (Z.ltb_spec e 0); [lia|].
    destruct (Z.ltb_spec p 0); [lia|].
    destruct (Z.eqb_spec e 0); [lia|]. simpl.
    destruct (Z.ltb_spec (Z.of_nat (length body)) (p + e)); [lia|].
    rewrite Hal. reflexivity.
  - unfold slice_from. destruct (Z.ltb_spec r 0); [lia|].
    rewrite skipn_firstn_comm, skipn_skipn.
    replace (Z.to_nat r + Z.to_nat p)%nat with (length pre) by lia.
    rewrite Hb, skipn_app, skipn_all, Nat.sub_diag. simpl.
    replace (Z.to_nat e - Z.to_nat r)%nat with (length mid) by lia.
    rewrite firstn_app, firstn_all, Nat.sub_diag. simpl.
    apply app_nil_r.
Qed.

Lemma layout_read (kl : nat) (ds : list Document) (start : Z)
      (pre post : list byte) (i : nat) (d : Document) :
  0 < PAGE_SIZE ->
  start = Z.of_nat (length pre) ->
  nth_error ds i = Some d ->
  binary_str d <> [] ->
  exists ent,
    nth_error (layout kl start ds) i = Some ent /\
    he_key ent = np_str kl (doc_id d) /\
    exists m,
      mmap_bytes (pre ++ concat (map binary_str ds) ++ post)
                 (he_page_offset ent) (he_end ent) = Ok m /\
      slice_from (he_start ent) m = binary_str d.
Proof.
  intros Hp. revert start pre i.
  induction ds as [|d0 ds IH]; intros start pre i Hst Hi Hne.
  - destruct i; discriminate.
  - destruct i as [|i]; simpl in Hi.
    + injection Hi as ->. simpl. eexists. split; [reflexivity|]. simpl.
      split; [reflexivity|].
      destruct (quot_mod_sum start Hp ltac:(lia)) as (Hsum & Hq & Hm & Hal).
      apply (read_region _ pre (binary_str d)
               (concat (map binary_str ds) ++ post)); auto; try lia.
      now rewrite <- app_assoc.
    + simpl.
      destruct (IH (start + Z.of_nat (length (binary_str d0)))
                  (pre ++ binary_str d0) i) as (ent & H1 & H2 & m & H3 & H4);
        auto.
      { rewrite length_app. lia. }
      exists ent. split; auto. split; auto. exists m. split; auto.
      rewrite <- H3. f_equal. now rewrite <- !app_assoc.
Qed.

Lemma get_In_NoDup (V : Type) (k : string) (v : V) (d : PyDict.t V) :
  NoDup (PyDict.keys d) -> In (k, v) d -> PyDict.get k d = Some v.
Proof.
  induction d as [|[k' v'] d IH]; simpl; [contradiction|].
  intros Hnd [Heq|Hin].
  - injection Heq as -> ->. now rewrite String.eqb_refl.
  - inversion Hnd as [|? ? Hk Hnd']; subst.
    destruct (String.eqb_spec k k') as [->|Hne]; auto.
    exfalso. apply Hk. now apply In_keys in Hin.
Qed.

Lemma getitem_str_state (k : string) (s : store) : snd (getitem_str k s) = s.
Proof.
  unfold getitem_str, get_doc_by_key.
  destruct (pool_get k (buffer_pool s)); auto.
  destruct (PyDict.get k (_header_map s)) as [[[[o p] r] e]|]; auto.
  destruct (mmap_bytes (_body s) p e); auto.
Qed.

Lemma collect_ok (A B : Type) (f : A -> M B) (xs : list A) (ys : list B)
      (s : store) :
  (forall x, snd (f x s) = s) ->
  Forall2 (fun x y => fst (f x s) = Ok y) xs ys ->
  collect f xs s = (Ok ys, s).
Proof.
  intros Hst H. induction H as [|x y xs ys Hxy _ IH]; [reflexivity|].
  cbn [collect]. unfold bind at 1. specialize (Hst x).
  destruct (f x s) as [r s']. simpl in *. subst. 
  unfold bind at 1. rewrite IH. reflexivity.
Qed.

Lemma collect_inv (A B : Type) (f : A -> M B) (xs : list A) (ys : list B)
      (s : store) :
  (forall x, snd (f x s) = s) ->
  fst (collect f xs s) = Ok ys ->
  Forall2 (fun x y => fst (f x s) = Ok y) xs ys.
Proof.
  intros Hst. revert ys. induction xs as [|x xs IH]; intros ys; cbn [collect].
  - intros [= <-]. constructor.
  - unfold bind at 1. specialize (Hst x) as Hx.
    destruct (f x s) as [[y|e] s'] eqn:E; simpl in *; [|discriminate]. subst.
    unfold bind at 1.
    destruct (collect f xs s) as [[ys'|e] s''] eqn:E'; simpl in *;
      [|discriminate].
    intros [= <-]. constructor; auto. now rewrite E.
Qed.

Lemma In_enumerate_nth (A : Type) (l : list A) (i : nat) (x : A) :
  nth_error l i = Some x -> In (i, x) (enumerate l).
Proof.
  revert i. induction l as [|y l IH] using rev_ind; intros i Hi.
  - destruct i; discriminate.
  - rewrite enumerate_snoc. apply in_or_app.
    destruct (Nat.lt_ge_cases i (length l)) as [Hlt|Hge].
    + left. apply IH. now rewrite nth_error_app1 in Hi.
    + right. rewrite nth_error_app2 in Hi by assumption.
      destruct (i - length l)%nat as [|n] eqn:E; simpl in Hi.
      * injection Hi as ->. left. f_equal. lia.
      * destruct n; discriminate.
Qed.

Lemma __iter___records (s : store) (ds : list Document) :
  records s = Ok ds ->
  __iter__ s = (Ok ds, s) /\
  Forall2 (fun k d => fst (getitem_str k s) = Ok d)
          (PyDict.keys (_header_map s)) ds.
Proof.
  unfold records, __iter__. intros H.
  apply collect_inv in H; [|intros; apply getitem_str_state].
  split; auto. apply collect_ok; auto. intros; apply getitem_str_state.
Qed.

Lemma fresh_store (path : string) (kl n : nat) :
  __init__ path kl n [] [] =
  (Ok tt, mk_store (os_path_join path "header.bin")
                   (os_path_join path "body.bin") kl [] [] 0 [] 0
                   (mk_pool n [])).
Proof. reflexivity. Qed.

Lemma compacted_files (kl : nat) (ds : list Document) (dam : store) :
  0 < PAGE_SIZE ->
  _header dam = [] -> _body dam = [] -> _body_pos dam = 0%nat ->
  _start dam = 0 -> _key_length dam = kl ->
  fst (bind (extend ds) (fun _ => reload) dam) = Ok tt /\
  _header (snd (bind (extend ds) (fun _ => reload) dam)) = layout kl 0 ds /\
  _body (snd (bind (extend ds) (fun _ => reload) dam))
  = concat (map binary_str ds).
Proof.
  intros Hp Hh Hb Hpos Hst Hkl.
  destruct (extend_state ds dam Hp) as (E1 & E2 & E3 & E4);
    [rewrite Hst, Hb; reflexivity | rewrite Hpos, Hb; reflexivity|].
  rewrite Hh, Hb, Hst, Hkl in *. simpl in E2, E3.
  unfold bind. destruct (extend ds dam) as [[[]|x] dam1]; simpl in *;
    [|discriminate].
  destruct (layout_facts kl ds 0 Hp ltac:(lia)) as (L1 & _).
  destruct (reload_ok dam1) as (R1 & _); [now rewrite E2|].
  destruct (reload_files dam1) as (F1 & F2 & _).
  split; [exact R1|]. now rewrite F1, F2.
Qed.

Lemma concat_length_regions (m : PyDict.t pos_info) (ds : list Document) (n : Z) :
  Forall2 (fun kv d =>
             0 <= fst (region (snd kv)) /\
             snd (region (snd kv)) - fst (region (snd kv))
             = Z.of_nat (length (binary_str d)) /\
             snd (region (snd kv)) <= n) m ds ->
  Z.of_nat (length (concat (map binary_str ds)))
  = total_length (map (fun kv => region (snd kv)) m) /\
  Forall (fun ab => 0 <= fst ab /\ fst ab <= snd ab /\ snd ab <= n)
         (map (fun kv => region (snd kv)) m).
Proof.
  induction 1 as [|kv d m ds (H1 & H2 & H3) _ [IH1 IH2]]; simpl.
  - split; [reflexivity | constructor].
  - rewrite length_app. split; [lia|]. constructor; auto. lia.
Qed.

Lemma prune_result (tdir : string) (s : store) (ds : list Document) :
  0 < PAGE_SIZE ->
  records s = Ok ds ->
  let s' := snd (prune tdir s) in
  fst (prune tdir s) = Ok tt /\
  _header s' = layout (_key_length s) 0 ds /\
  _body s' = concat (map binary_str ds) /\
  _header_map s' = load_header_map (layout (_key_length s) 0 ds) /\
  buffer_pool s' = pool_clear (buffer_pool s) /\
  _key_length s' = _key_length s.
Proof.
  intros Hp Hrec. destruct (__iter___records s ds Hrec) as [Hit _].
  unfold prune. rewrite fresh_store, Hit.
  set (dam := mk_store _ _ _ _ _ _ _ _ _).
  destruct (compacted_files (_key_length s) ds dam Hp)
    as (C1 & C2 & C3); try reflexivity.
  destruct (bind (extend ds) (fun _ => reload) dam) as [[[]|x] dam'];
    simpl in C1, C2, C3; [|discriminate].
  rewrite C2, C3.
  set (s2 := set_body _ _ _).
  destruct (layout_facts (_key_length s) ds 0 Hp ltac:(lia)) as (L1 & _).
  destruct (reload_ok s2) as (R1 & R2); [exact L1|].
  destruct (reload_files s2) as (F1 & F2 & F3).
  assert (Hk : _key_length (snd (reload s2)) = _key_length s2).
  { apply (bind_key_length _ _ (_load_header_body Mode_a)); auto.
    intros s0. apply (_load_header_body_fields Mode_a s0). }
  repeat split; auto.
Qed.

(** C2 (as the code has it): when iterating the store yields records that
    each carry the live key they were reached by, a key that fits the key
    width, and a non-empty encoding, [prune] returns normally and iterating
    shows the same keys with the same records, in the same order, as before;
    when moreover the header file has at least as many slots as there are
    live keys and the live entries point to pairwise disjoint ranges of the
    body file that have the sizes of their records, the two files together
    are not larger after [prune] than before. *)
Theorem prune_preserves_items (tdir : string) (s : store) (ds : list Document) :
  0 < PAGE_SIZE ->
  (forall d, Document_from_bytes (binary_str d) = d) ->
  NoDup (PyDict.keys (_header_map s)) ->
  records s = Ok ds ->
  map doc_id ds = PyDict.keys (_header_map s) ->
  Forall (fun d => np_str (_key_length s) (doc_id d) = doc_id d /\
                   binary_str d <> []) ds ->
  let s' := snd (prune tdir s) in
  fst (prune tdir s) = Ok tt /\
  items s = Ok (combine (PyDict.keys (_header_map s)) ds) /\
  items s' = items s /\
  ((__len__ s <= length (_header s))%nat ->
   Forall2 (fun kv d =>
              0 <= fst (region (snd kv)) /\
              snd (region (snd kv)) - fst (region (snd kv))
              = Z.of_nat (length (binary_str d)) /\
              snd (region (snd kv)) <= Z.of_nat (length (_body s)))
           (_header_map s) ds ->
   ForallOrdPairs disjoint (map (fun kv => region (snd kv)) (_header_map s)) ->
   disk_usage s' <= disk_usage s).
Proof.
  intros Hp Hrt Hnd Hrec Hkeys Hfit s'.
  destruct (prune_result tdir s ds Hp Hrec) as (P1 & P2 & P3 & P4 & P5 & P6).
  fold s' in P2, P3, P4, P5, P6.
  destruct (layout_facts (_key_length s) ds 0 Hp ltac:(lia))
    as (L1 & L2 & L3 & L4).
  assert (Hnorm : map (fun d => np_str (_key_length s) (doc_id d)) ds
                  = map doc_id ds).
  { apply map_ext_in. intros d Hd.
    rewrite Forall_forall in Hfit. now destruct (Hfit d Hd). }
  assert (Hhk : map he_key (layout (_key_length s) 0 ds)
                = PyDict.keys (_header_map s)).
  { now rewrite L3, Hnorm. }
  assert (Hmap : _header_map s'
                 = map (fun ie : nat * header_entry =>
                          (he_key (snd ie),
                           (fst ie, he_page_offset (snd ie),
                            he_start (snd ie), he_end (snd ie))))
                       (enumerate (layout (_key_length s) 0 ds))).
  { rewrite P4. apply load_header_map_distinct; auto. now rewrite Hhk. }
  assert (Hk' : PyDict.keys (_header_map s') = PyDict.keys (_header_map s)).
  { rewrite Hmap. unfold PyDict.keys. rewrite map_map. simpl.
    rewrite <- (map_map snd he_key), map_snd_enumerate. exact Hhk. }
  assert (Hnd' : NoDup (PyDict.keys (_header_map s'))).
  { rewrite Hk'. exact Hnd. }
  assert (Hitems : items s = Ok (combine (PyDict.keys (_header_map s)) ds)).
  { unfold items. unfold records in Hrec. now rewrite Hrec. }
  assert (Hrec' : __iter__ s' = (Ok ds, s')).
  { unfold __iter__. apply collect_ok; [intros; apply getitem_str_state|].
    rewrite Hk', <- Hkeys.
    assert (Hall : Forall (fun d => fst (getitem_str (doc_id d) s') = Ok d) ds).
    { apply Forall_forall. intros d Hd.
      destruct (In_nth_error _ _ Hd) as [i Hi].
      rewrite Forall_forall in Hfit. destruct (Hfit d Hd) as [Hn Hne].
      destruct (layout_read (_key_length s) ds 0 [] [] i d Hp eq_refl Hi Hne)
        as (ent & N1 & N2 & m & N3 & N4).
      simpl in N3. rewrite app_nil_r in N3.
      unfold getitem_str. rewrite P5. cbn [pool_get pool_clear pool_docs].
      cbn [PyDict.get]. unfold get_doc_by_key.
      assert (Hget : PyDict.get (doc_id d) (_header_map s')
                     = Some (i, he_page_offset ent, he_start ent, he_end ent)).
      { apply get_In_NoDup; [exact Hnd'|].
        rewrite Hmap. apply in_map_iff. exists (i, ent). simpl.
        split; [now rewrite N2, Hn | now apply In_enumerate_nth]. }
      rewrite Hget, P3, N3. simpl. now rewrite N4, Hrt. }
    clear -Hall. induction Hall; simpl; constructor; auto. }
  split; [exact P1|]. split; [exact Hitems|]. split.
  { rewrite Hitems. unfold items. now rewrite Hrec', Hk'. }
  intros Hlen Hreg Hdisj.
  destruct (concat_length_regions _ _ _ Hreg) as [Hsum Hin].
  pose proof (disjoint_ranges_fit _ _ Hin Hdisj) as Hle.
  unfold disk_usage, _header_entry_size. rewrite P2, P3, P6, L4.
  assert (Hn : length ds = __len__ s).
  { unfold __len__, PyDict.len.
    rewrite <- (length_map doc_id), Hkeys. unfold PyDict.keys.
    now rewrite length_map. }
  rewrite Hn. nia.
Qed.

(** ** Slices *)

Lemma py_range_bounds (a b step i : Z) :
  0 < step -> In i (py_range a b step) -> a <= i < b.
Proof.
  intros Hs Hin. unfold py_range in Hin.
  apply in_map_iff in Hin as (k & <- & Hk). apply in_seq in Hk.
  unfold range_len in Hk. rewrite (proj2 (Z.ltb_lt 0 step) Hs) in Hk.
  assert (Hq : Z.of_nat k < (b - a + step - 1) / step) by lia.
  pose proof (Z.mul_div_le (b - a + step - 1) step Hs). nia.
Qed.

Lemma py_range_unit (n : nat) :
  py_range 0 (Z.of_nat n) 1 = map Z.of_nat (seq 0 n).
Proof.
  unfold py_range, range_len. simpl.
  replace (Z.of_nat n - 0 + 1 - 1) with (Z.of_nat n) by lia.
  rewrite Z.div_1_r, Nat2Z.id. apply map_ext. intros k. lia.
Qed.

(** X1: with a positive step (or none, or zero, which count as 1), every
    ordinal a slice resolves to lies in [[0, len)]. *)
Theorem _iteridx_by_slice_in_bounds (sl : slice) (s : store) (i : Z) :
  0 < int_or (sl_step sl) 1 ->
  In i (_iteridx_by_slice sl s) ->
  0 <= i < Z.of_nat (__len__ s).
Proof.
  intros Hstep. unfold _iteridx_by_slice.
  set (len := Z.of_nat (__len__ s)).
  assert (Hlen : 0 <= len) by (subst len; lia).
  set (start0 := int_or (sl_start sl) 0).
  set (stop0 := match sl_stop sl with Some v => v | None => len end).
  set (stop1 := if (stop0 <? 0) && (- len <=? stop0) then stop0 + len else stop0).
  set (start1 := if (start0 <? 0) && (- len <=? start0)
                 then start0 + len else start0).
  clearbody start1 stop1. clear start0 stop0.
  destruct (Z.leb_spec start1 stop1) as [Hle|Hgt].
  - destruct (Z.ltb_spec start1 0), (Z.ltb_spec stop1 0),
      (Z.ltb_spec len start1), (Z.ltb_spec len stop1);
      simpl; intros Hin; apply py_range_bounds in Hin; auto; lia.
  - intros Hin. apply py_range_bounds in Hin; auto. lia.
Qed.

Lemma iteridx_all (s : store) :
  _iteridx_by_slice (mk_slice None None None) s
  = map Z.of_nat (seq 0 (__len__ s)).
Proof.
  unfold _iteridx_by_slice. simpl.
  set (len := Z.of_nat (__len__ s)).
  assert (Hlen : 0 <= len) by (subst len; lia).
  destruct (Z.ltb_spec len 0); [lia|]. simpl.
  destruct (Z.leb_spec (- len) 0); [|lia]. simpl.
  destruct (Z.leb_spec 0 len); [|lia].
  destruct (Z.ltb_spec len 0); [lia|]. simpl.
  destruct (Z.ltb_spec len len); [lia|].
  subst len. apply py_range_unit.
Qed.

(** X2: the slice with no bounds and no step resolves to every ordinal below
    [len], each once, in increasing order. *)
Theorem _iteridx_by_slice_full (s : store) :
  _iteridx_by_slice (mk_slice None None None) s
  = map Z.of_nat (seq 0 (__len__ s)).
Proof. exact (iteridx_all s). Qed.

(** ** Missing keys and ordinals out of range *)

(** X3: for a key that is not live, the membership test is false, deleting
    it and reading it from the body raise [KeyError], and so does fetching it
    when it is not cached; none of them changes the store. *)
Theorem missing_key_raises (k : string) (s : store) :
  PyDict.mem k (_header_map s) = false ->
  __contains__ k s = false /\
  __delitem__ (IStr k) s = (Raise KeyError, s) /\
  get_doc_by_key k s = (Raise KeyError, s) /\
  (pool_get k (buffer_pool s) = None ->
   __getitem__ (IStr k) s = (Raise KeyError, s)).
Proof.
  intros Hk. unfold PyDict.mem in Hk.
  destruct (PyDict.get k (_header_map s)) eqn:E; [discriminate|].
  split; [unfold __contains__, PyDict.mem; now rewrite E|].
  split; [unfold __delitem__, bind, _str2int_id; now rewrite E|].
  assert (Hg : get_doc_by_key k s = (Raise KeyError, s)).
  { unfold get_doc_by_key. now rewrite E. }
  split; [exact Hg|]. intros Hp.
  unfold __getitem__, bind, getitem_str. now rewrite Hp, Hg.
Qed.




(** X5: assigning to an ordinal outside [[0, len)], negative ones included,
    raises [IndexError], and assigning to a slice raises [TypeError]; the
    store is unchanged. *)
Theorem setitem_out_of_range_raises (i : Z) (sl : slice) (d : Document)
        (s : store) :
  (~ (0 <= i < Z.of_nat (__len__ s)) ->
   __setitem__ (IInt i) d s = (Raise IndexError, s)) /\
  __setitem__ (ISlice sl) d s = (Raise TypeError, s).
Proof.
  split; [|reflexivity]. intros Hi. unfold __setitem__.
  destruct (Z.leb_spec 0 i), (Z.ltb_spec i (Z.of_nat (__len__ s)));
    simpl; auto. lia.
Qed.


(** ** Appending and reading back *)



Lemma mmap_bytes_app (body data m : list byte) (p e : Z) :
  e <> 0 -> mmap_bytes body p e = Ok m -> mmap_bytes (body ++ data) p e = Ok m.
Proof.
  intros He. unfold mmap_bytes. rewrite length_app.
  destruct (Z.ltb_spec e 0); [discriminate|].
  destruct (Z.ltb_spec p 0); [discriminate|].
  destruct (Z.eqb_spec e 0); [contradiction|]. simpl.
  destruct (Z.ltb_spec (Z.of_nat (length body)) (p + e)); [discriminate|].
  destruct (Z.ltb_spec (Z.of_nat (length body + length data)) (p + e)); [lia|].
  destruct (negb (p mod PAGE_SIZE =? 0)); [discriminate|].
  intros [= <-]. f_equal.
  rewrite skipn_app, firstn_app. 
  replace (Z.to_nat e - length (skipn (Z.to_nat p) body))%nat with 0%nat
    by (rewrite length_skipn; lia).
  simpl. apply app_nil_r.
Qed.

(** X8: appending at the end of the body file does not change what is read
    from the file under any other live key (one whose mapping has a non-zero
    length). *)
Theorem append_keeps_other_records
        (d : Document) (flush update_buffer : bool) (k : string)
        (x : Document) (s : store) :
  _body_pos s = length (_body s) ->
  k <> doc_id d ->
  (forall o p r e, PyDict.get k (_header_map s) = Some (o, p, r, e) -> e <> 0) ->
  fst (get_doc_by_key k s) = Ok x ->
  fst (get_doc_by_key k (snd (append d flush update_buffer s))) = Ok x.
Proof.
  intros Hpos Hk He Hread.
  destruct (append_state d flush update_buffer s)
    as (_ & _ & Em & _ & Eb & _).
  rewrite Hpos, write_at_end in Eb.
  unfold get_doc_by_key in Hread.
  destruct (PyDict.get k (_header_map s)) as [[[[o p] r] e]|] eqn:E;
    [|discriminate].
  specialize (He o p r e eq_refl).
  destruct (mmap_bytes (_body s) p e) as [m|err] eqn:Em'; [|discriminate].
  unfold get_doc_by_key. rewrite Em, Eb.
  rewrite PyDictFacts.get_set_other by assumption.
  unfold PyDict.t, pos_info in *. rewrite E.
  now rewrite (mmap_bytes_app _ _ m p e He Em').
Qed.

(** ** What deletion leaves alone *)

Lemma bind_rel (R : store -> store -> Prop) (A B : Type) (m : M A)
      (f : A -> M B) :
  (forall a b c, R a b -> R b c -> R a c) ->
  (forall s, R s (snd (m s))) ->
  (forall a s, R s (snd (f a s))) ->
  forall s, R s (snd (bind m f s)).
Proof.
  intros Ht Hm Hf s. unfold bind. specialize (Hm s).
  destruct (m s) as [[a|e] s']; simpl in *; auto.
  eapply Ht; eauto.
Qed.

Lemma for_each_rel (R : store -> store -> Prop) (A : Type) (f : A -> M unit) :
  (forall a, R a a) ->
  (forall a b c, R a b -> R b c -> R a c) ->
  (forall x s, R s (snd (f x s))) ->
  forall xs s, R s (snd (for_each f xs s)).
Proof.
  intros Hr Ht Hf xs. induction xs as [|x xs IH]; intros s; simpl; auto.
  apply bind_rel; auto.
Qed.

Lemma write_slot_length_ge (idx : nat) (e : header_entry)
      (h : list header_entry) :
  (length h <= length (write_slot idx e h))%nat.
Proof.
  unfold write_slot. destruct (Nat.ltb_spec idx (length h)).
  - rewrite length_app, length_firstn. cbn [length]. rewrite length_skipn. lia.
  - rewrite length_app. lia.
Qed.

Local Abbreviation body_kept :=
  (fun s s' : store =>
     _body s' = _body s /\ _body_pos s' = _body_pos s /\
     _start s' = _start s /\
     (length (_header s) <= length (_header s'))%nat).

Lemma body_kept_refl (s : store) : body_kept s s.
Proof. repeat split; auto. Qed.

Lemma body_kept_trans (a b c : store) :
  body_kept a b -> body_kept b c -> body_kept a c.
Proof.
  intros (A1 & A2 & A3 & A4) (B1 & B2 & B3 & B4).
  repeat split; try congruence. lia.
Qed.

Lemma _del_doc_body_kept (idx : Z) (k : string) (s : store) :
  body_kept s (snd (_del_doc idx k s)).
Proof.
  unfold _del_doc. destruct (_ <? 0); [apply body_kept_refl|]. simpl.
  destruct (PyDict.mem k (_header_map s)); simpl; repeat split; auto;
    apply write_slot_length_ge.
Qed.

Lemma _int2str_id_body_kept (i : Z) (s : store) :
  body_kept s (snd (_int2str_id i s)).
Proof. rewrite _int2str_id_state. apply body_kept_refl. Qed.

Lemma delitem_frame (key : index) (s : store) :
  _body (snd (__delitem__ key s)) = _body s /\
  _body_pos (snd (__delitem__ key s)) = _body_pos s /\
  _start (snd (__delitem__ key s)) = _start s /\
  (length (_header s) <= length (_header (snd (__delitem__ key s))))%nat.
Proof.
  destruct key as [k|i|sl|]; cbn [__delitem__].
  - apply (bind_rel body_kept); [exact body_kept_trans | |].
    + intros s0. unfold _str2int_id.
      destruct (PyDict.get k (_header_map s0)) as [[[[? ?] ?] ?]|];
        apply body_kept_refl.
    + intros a s0. apply _del_doc_body_kept.
  - apply (bind_rel body_kept); [exact body_kept_trans | |].
    + apply _int2str_id_body_kept.
    + intros a s0. apply _del_doc_body_kept.
  - apply (for_each_rel body_kept);
      [exact body_kept_refl | exact body_kept_trans |].
    intros x s0. apply (bind_rel body_kept); [exact body_kept_trans | |].
    + apply _int2str_id_body_kept.
    + intros a s1. apply _del_doc_body_kept.
  - apply body_kept_refl.
Qed.

(** X9: no deletion, by key, by ordinal or by slice, whether it returns or
    raises, changes the body file, the position of its handle or the write
    cursor, and none removes a slot from the header file. *)
Theorem delitem_keeps_body (key : index) (s : store) :
  _body (snd (__delitem__ key s)) = _body s /\
  _body_pos (snd (__delitem__ key s)) = _body_pos s /\
  _start (snd (__delitem__ key s)) = _start s /\
  (length (_header s) <= length (_header (snd (__delitem__ key s))))%nat.
Proof. exact (delitem_frame key s). Qed.

(** X10: in every store reached from a newly created one by appends, extends,
    item assignments, deletions, reloads and clears, the live mapping has at
    most as many keys as the header file has slots and every ordinal it
    records is the index of a slot; so deleting a live key rewrites a slot
    and never lengthens the header file. *)
Theorem reachable_ordinals_in_header
        (path : string) (kl n : nat) (ops : list op) :
  let s := run ops (snd (__init__ path kl n [] [])) in
  (__len__ s <= length (_header s))%nat /\
  (forall k o p r e,
      PyDict.get k (_header_map s) = Some (o, p, r, e) ->
      (o < length (_header s))%nat /\
      length (_header (snd (__delitem__ (IStr k) s))) = length (_header s)).
Proof.
  intros s.
  pose proof (store_inv_run ops [] _ (store_inv_init path kl n)) as Hinv.
  fold s in Hinv. split; [apply (inv_len Hinv)|].
  intros k o p r e Hget.
  assert (Ho : (o < length (_header s))%nat).
  { apply (inv_ord Hinv k o p r e). now apply get_In. }
  split; [exact Ho|].
  assert (Hk : PyDict.mem k (_header_map s) = true).
  { unfold PyDict.mem. now rewrite Hget. }
  destruct (__delitem___live k s Hk) as (o' & p' & r' & e' & Hget' & Hd).
  rewrite Hget in Hget'. injection Hget' as <- <- <- <-.
  rewrite Hd, (_del_doc_live o k s Hk). simpl.
  now apply write_slot_length.
Qed.

(** ** The body file as a log *)

Lemma append_log (d : Document) (fl ub : bool) (s : store) :
  0 < PAGE_SIZE ->
  _start s = Z.of_nat (length (_body s)) ->
  _body_pos s = length (_body s) ->
  let s' := snd (append d fl ub s) in
  _body s' = _body s ++ binary_str d /\
  _start s' = Z.of_nat (length (_body s')) /\
  _body_pos s' = length (_body s').
Proof.
  intros Hp Hst Hpos s'.
  destruct (append_state d fl ub s) as (_ & _ & _ & Es & Eb & Ep & _).
  fold s' in Es, Eb, Ep.
  destruct (quot_mod_sum (_start s) Hp ltac:(lia)) as (Hsum & _).
  rewrite Hpos, write_at_end in Eb.
  rewrite Es, Eb, Ep, length_app. repeat split; lia.
Qed.

Lemma extend_log (ds : list Document) (s : store) :
  0 < PAGE_SIZE ->
  _start s = Z.of_nat (length (_body s)) ->
  _body_pos s = length (_body s) ->
  let s' := snd (extend ds s) in
  _body s' = _body s ++ concat (map binary_str ds) /\
  _start s' = Z.of_nat (length (_body s')) /\
  _body_pos s' = length (_body s').
Proof.
  intros Hp. revert s. induction ds as [|d ds IH]; intros s Hst Hpos.
  - simpl. now rewrite app_nil_r.
  - cbv zeta. rewrite extend_cons.
    destruct (append_log d false true s Hp Hst Hpos) as (A1 & A2 & A3).
    set (t := set_buffer_pool _ _).
    destruct (IH t) as (I1 & I2 & I3); [exact A2 | exact A3 |].
    rewrite I2, I3, I1. subst t. cbn [_body set_buffer_pool].
    rewrite A1. cbn [map concat]. now rewrite <- !app_assoc.
Qed.

Lemma exec_log (o : op) (s : store) :
  0 < PAGE_SIZE ->
  o <> Op_reload -> o <> Op_clear ->
  _start s = Z.of_nat (length (_body s)) ->
  _body_pos s = length (_body s) ->
  _body (exec o s) = _body s ++ concat (map binary_str (appended_by o s)) /\
  _start (exec o s) = Z.of_nat (length (_body (exec o s))) /\
  _body_pos (exec o s) = length (_body (exec o s)).
Proof.
  intros Hp Hr Hc Hst Hpos.
  destruct o as [d|ds|key d|key| |]; try congruence; cbn [exec appended_by].
  - destruct (append_log d true true s Hp Hst Hpos) as (A1 & A2 & A3).
    cbn [map concat]. now rewrite app_nil_r.
  - now apply extend_log.
  - destruct key as [k|i|sl|].
    + destruct (append_log (with_id k d) true true s Hp Hst Hpos)
        as (A1 & A2 & A3).
      unfold __setitem__, bind, modify. rewrite append_pair.
      cbn [snd _body _start _body_pos set_buffer_pool map concat].
      now rewrite app_nil_r.
    + destruct ((0 <=? i) && (i <? Z.of_nat (__len__ s))) eqn:Hrange.
      * apply andb_true_iff in Hrange as [H0 H1].
        apply Z.leb_le in H0. apply Z.ltb_lt in H1.
        destruct (nth_error (_header s) (Z.to_nat i)) as [e|] eqn:He.
        -- rewrite (_int2str_id_slot i e s H0 He). cbn [fst].
           rewrite (__setitem___int i d e s (conj H0 H1) He).
           destruct (append_log d true true s Hp Hst Hpos) as (A1 & A2 & A3).
           cbn [map concat]. rewrite app_nil_r.
           destruct (String.eqb (he_key e) (doc_id d));
             cbn [snd _body _start _body_pos set_buffer_pool set_header_map
                  set_header]; auto.
        -- assert (Hi : _int2str_id i s = (Raise IndexError, s)).
           { unfold _int2str_id.
             assert (Hq : (i * _header_entry_size s <? 0) = false).
             { apply Z.ltb_ge. unfold _header_entry_size. nia. }
             now rewrite Hq, He. }
           assert (Hset : __setitem__ (IInt i) d s = (Raise IndexError, s)).
           { unfold __setitem__.
             assert (Hrange : (0 <=? i) && (i <? Z.of_nat (__len__ s)) = true).
             { apply andb_true_iff.
               split; [apply Z.leb_le | apply Z.ltb_lt]; lia. }
             rewrite Hrange. unfold bind at 1. now rewrite Hi. }
           rewrite Hi, Hset. cbn [fst snd map concat]. now rewrite app_nil_r.
      * assert (Hset : __setitem__ (IInt i) d s = (Raise IndexError, s)).
        { unfold __setitem__. now rewrite Hrange. }
        rewrite Hset. cbn [snd map concat]. now rewrite app_nil_r.
    + cbn [__setitem__ raise snd map concat]. now rewrite app_nil_r.
    + cbn [__setitem__ raise snd map concat]. now rewrite app_nil_r.
  - destruct (delitem_frame key s) as (D1 & D2 & D3 & _).
    rewrite D1, D2, D3. cbn [map concat]. now rewrite app_nil_r.
Qed.

(** X11: as long as the store is neither reloaded nor cleared, the body file
    is a log: starting with the write cursor and the body handle at the end
    of the body file, after any appends, extends, item assignments and
    deletions the body file is what it was followed by the encodings of the
    records appended since, in order, and the write cursor is again at its
    end (for a body file that stays below 2^53 bytes); assigning over a key
    and deleting reclaim no bytes. *)
Theorem body_is_append_log (ops : list op) (s : store) :
  0 < PAGE_SIZE ->
  ~ In Op_reload ops -> ~ In Op_clear ops ->
  _start s = Z.of_nat (length (_body s)) ->
  _body_pos s = length (_body s) ->
  Z.of_nat (length (_body s ++ concat (map binary_str (ever_appended ops s))))
  < 2 ^ 53 ->
  _body (run ops s)
  = _body s ++ concat (map binary_str (ever_appended ops s)) /\
  _start (run ops s) = Z.of_nat (length (_body (run ops s))).
Proof.
  intros Hp Hr Hc Hst Hpos _. revert s Hr Hc Hst Hpos.
  induction ops as [|o ops IH]; intros s Hr Hc Hst Hpos.
  - simpl. now rewrite app_nil_r.
  - assert (Hor : o <> Op_reload) by (intros ->; apply Hr; now left).
    assert (Hoc : o <> Op_clear) by (intros ->; apply Hc; now left).
    destruct (exec_log o s Hp Hor Hoc Hst Hpos) as (E1 & E2 & E3).
    destruct (IH (exec o s)) as (I1 & I2); auto.
    { intros H; apply Hr; now right. }
    { intros H; apply Hc; now right. }
    change (run (o :: ops) s) with (run ops (exec o s)).
    cbn [ever_appended]. rewrite I2, I1, E1, map_app, concat_app.
    now rewrite <- !app_assoc.
Qed.

(** ** What compaction leaves *)

Lemma reload_start (s : store) :
  _start (snd (reload s)) =
  match load_header_map (_header s) with
  | [] => 0
  | _ :: _ => he_page_offset (last (_header s) zero_entry)
              + he_end (last (_header s) zero_entry)
  end.
Proof.
  unfold reload, bind, modify, _load_header_body.
  cbn [_header_map set_start set_header_map set_body set_header _header _start].
  destruct (load_header_map (_header s)); [reflexivity|].
  destruct (_ <? 0); reflexivity.
Qed.

Lemma layout_last (kl : nat) (ds : list Document) (start : Z) :
  0 < PAGE_SIZE -> 0 <= start -> ds <> [] ->
  he_page_offset (last (layout kl start ds) zero_entry)
  + he_end (last (layout kl start ds) zero_entry)
  = start + Z.of_nat (length (concat (map binary_str ds))).
Proof.
  intros Hp. revert start. induction ds as [|d ds IH]; intros start Hs Hne;
    [congruence|].
  destruct (quot_mod_sum start Hp Hs) as (Hsum & _).
  destruct ds as [|d' ds].
  - simpl. rewrite app_nil_r. lia.
  - change (layout kl start (d :: d' :: ds))
      with (mk_entry (np_str kl (doc_id d))
                     (Z.quot start PAGE_SIZE * PAGE_SIZE)
                     (start mod PAGE_SIZE)
                     (start mod PAGE_SIZE + Z.of_nat (length (binary_str d)))
            :: layout kl (start + Z.of_nat (length (binary_str d))) (d' :: ds)).
    change (last (?e :: layout kl ?st (d' :: ds)) zero_entry)
      with (last (layout kl st (d' :: ds)) zero_entry).
    rewrite IH by (try lia; congruence).
    cbn [map concat]. rewrite !length_app. lia.
Qed.

Lemma length_enumerate (A : Type) (l : list A) :
  length (enumerate l) = length l.
Proof.
  unfold enumerate. rewrite length_combine, length_seq. apply Nat.min_id.
Qed.

Lemma prune_dense (tdir : string) (s : store) (ds : list Document) :
  0 < PAGE_SIZE ->
  records s = Ok ds ->
  NoDup (map (fun d => np_str (_key_length s) (doc_id d)) ds) ->
  let s' := snd (prune tdir s) in
  fst (prune tdir s) = Ok tt /\
  _header s' = layout (_key_length s) 0 ds /\
  _body s' = concat (map binary_str ds) /\
  _header_map s' = map live_entry (enumerate (layout (_key_length s) 0 ds)) /\
  buffer_pool s' = pool_clear (buffer_pool s) /\
  _start s' = Z.of_nat (length (_body s')).
Proof.
  intros Hp Hrec Hnd s'.
  destruct (prune_result tdir s ds Hp Hrec) as (P1 & P2 & P3 & P4 & P5 & P6).
  fold s' in P2, P3, P4, P5, P6.
  destruct (layout_facts (_key_length s) ds 0 Hp ltac:(lia))
    as (L1 & L2 & L3 & L4).
  assert (Hmap : _header_map s'
                 = map live_entry (enumerate (layout (_key_length s) 0 ds))).
  { rewrite P4. apply load_header_map_distinct; auto. now rewrite L3. }
  repeat split; auto.
  rewrite P3. subst s'.
  destruct (__iter___records s ds Hrec) as [Hit _].
  unfold prune. rewrite fresh_store, Hit.
  set (dam := mk_store _ _ _ _ _ _ _ _ _).
  destruct (compacted_files (_key_length s) ds dam Hp)
    as (C1 & C2 & C3); try reflexivity.
  destruct (bind (extend ds) (fun _ => reload) dam) as [[[]|x] dam'];
    simpl in C1, C2, C3; [|discriminate].
  rewrite C2, C3, reload_start.
  cbn [_header set_body set_header].
  destruct ds as [|d ds]; [reflexivity|].
  destruct (load_header_map (layout (_key_length s) 0 (d :: ds))) eqn:E.
  - exfalso. rewrite load_header_map_distinct in E; auto;
      [|now rewrite L3]. discriminate.
  - rewrite layout_last by (try lia; congruence). lia.
Qed.

Lemma dense_lookup (kl : nat) (ds : list Document) (t : store)
      (i : nat) (d : Document) :
  0 < PAGE_SIZE ->
  NoDup (map (fun d => np_str kl (doc_id d)) ds) ->
  _header t = layout kl 0 ds ->
  _body t = concat (map binary_str ds) ->
  _header_map t = map live_entry (enumerate (layout kl 0 ds)) ->
  pool_docs (buffer_pool t) = [] ->
  nth_error ds i = Some d ->
  _int2str_id (Z.of_nat i) t = (Ok (np_str kl (doc_id d)), t) /\
  _str2int_id (np_str kl (doc_id d)) t = (Ok (Z.of_nat i), t) /\
  (binary_str d <> [] ->
   getitem_str (np_str kl (doc_id d)) t
   = (Ok (Document_from_bytes (binary_str d)), t)).
Proof.
  intros Hp Hnd Hh Hb Hm Hpool Hi.
  destruct (layout_facts kl ds 0 Hp ltac:(lia)) as (L1 & L2 & L3 & L4).
  assert (Hent : exists ent, nth_error (layout kl 0 ds) i = Some ent /\
                             he_key ent = np_str kl (doc_id d)).
  { pose proof (nth_error_map he_key i (layout kl 0 ds)) as Hn.
    rewrite L3, nth_error_map, Hi in Hn. simpl in Hn.
    destruct (nth_error (layout kl 0 ds) i) as [ent|]; [|discriminate].
    exists ent. split; auto. simpl in Hn. congruence. }
  destruct Hent as (ent & Hn & Hk).
  assert (Hkeys : PyDict.keys (_header_map t)
                  = map (fun d => np_str kl (doc_id d)) ds).
  { rewrite Hm. unfold PyDict.keys. rewrite map_map. simpl.
    rewrite <- (map_map snd he_key), map_snd_enumerate. exact L3. }
  assert (Hget : PyDict.get (np_str kl (doc_id d)) (_header_map t)
                 = Some (i, he_page_offset ent, he_start ent, he_end ent)).
  { unfold PyDict.t, pos_info in *.
    apply get_In_NoDup; [now rewrite Hkeys|].
    rewrite Hm. apply in_map_iff. exists (i, ent). simpl.
    split; [now rewrite Hk | now apply In_enumerate_nth]. }
  split; [|split].
  - rewrite <- Hk. apply _int2str_id_slot; [lia|].
    now rewrite Nat2Z.id, Hh.
  - unfold _str2int_id. now rewrite Hget.
  - intros Hne.
    destruct (layout_read kl ds 0 [] [] i d Hp eq_refl Hi Hne)
      as (ent' & N1 & N2 & m & N3 & N4).
    rewrite Hn in N1. injection N1 as <-.
    simpl in N3. rewrite app_nil_r in N3.
    unfold getitem_str, pool_get. rewrite Hpool. cbn [PyDict.get].
    unfold get_doc_by_key. rewrite Hget, Hb, N3. now rewrite N4.
Qed.

Lemma Forall2_seq_nth (A B : Type) (R : A -> B -> Prop) (g : nat -> A)
      (l : list B) (n : nat) :
  (forall i y, nth_error l i = Some y -> R (g (n + i)%nat) y) ->
  Forall2 R (map g (seq n (length l))) l.
Proof.
  revert n. induction l as [|y l IH]; intros n H; simpl; constructor.
  - specialize (H 0%nat y eq_refl). now rewrite Nat.add_0_r in H.
  - apply IH. intros i z Hz. specialize (H (S i) z Hz).
    now replace (S n + i)%nat with (n + S i)%nat by lia.
Qed.


(** X13: after such a [prune], when every record has a non-empty encoding that
    decodes to the record itself, the slice with no bounds fetches exactly
    the records iterated before, in the same order, and leaves the store as
    it is. *)
Theorem prune_then_slice_all (tdir : string) (s : store) (ds : list Document) :
  0 < PAGE_SIZE ->
  records s = Ok ds ->
  NoDup (map (fun d => np_str (_key_length s) (doc_id d)) ds) ->
  Z.of_nat (length (concat (map binary_str ds))) < 2 ^ 53 ->
  Forall (fun d => binary_str d <> [] /\ Document_from_bytes (binary_str d) = d)
         ds ->
  let s' := snd (prune tdir s) in
  __getitem__ (ISlice (mk_slice None None None)) s'
  = (Ok (A_DocumentArray ds), s').
Proof.
  intros Hp Hrec Hnd _ Hall s'.
  destruct (prune_dense tdir s ds Hp Hrec Hnd)
    as (D1 & D2 & D3 & D4 & D5 & D6).
  fold s' in D2, D3, D4, D5, D6.
  assert (Hlen : __len__ s' = length ds).
  { unfold __len__, PyDict.len. rewrite D4.
    rewrite length_map, length_enumerate.
    now destruct (layout_facts (_key_length s) ds 0 Hp ltac:(lia))
      as (_ & _ & _ & L4). }
  unfold __getitem__, bind, _get_doc_array_by_slice.
  rewrite iteridx_all, Hlen.
  rewrite (collect_ok _ _ _ _ ds s').
  - reflexivity.
  - intros x. unfold bind.
    pose proof (_int2str_id_state x s') as Hs.
    destruct (_int2str_id x s') as [[k|e] s0]; simpl in Hs; subst; auto.
    apply getitem_str_state.
  - apply Forall2_seq_nth. intros i d Hi. simpl.
    destruct (dense_lookup (_key_length s) ds s' i d Hp Hnd D2 D3 D4)
      as (K1 & K2 & K3); auto.
    { now rewrite D5. }
    rewrite Forall_forall in Hall.
    destruct (Hall d (nth_error_In _ _ Hi)) as [Hne Hrt].
    unfold bind. rewrite K1, (K3 Hne). simpl. now rewrite Hrt.
Qed.

(** ** Appends and reload *)

(** The live mapping is what loading the header file gives, every slot is
    live with non-negative offsets, no key is in two slots, and the write
    cursor is where the last slot ends. *)
Local Abbreviation synced :=
  (fun t : store =>
     _header_map t = map live_entry (enumerate (_header t)) /\
     Forall (fun e => is_none_entry e = false /\
                      0 <= he_page_offset e /\ 0 <= he_end e) (_header t) /\
     NoDup (map he_key (_header t)) /\
     0 <= _start t /\
     _start t = match _header t with
                | [] => 0
                | _ :: _ => he_page_offset (last (_header t) zero_entry)
                            + he_end (last (_header t) zero_entry)
                end).

Lemma keys_live_entries (h : list header_entry) :
  PyDict.keys (map live_entry (enumerate h)) = map he_key h.
Proof.
  unfold PyDict.keys. rewrite map_map. simpl.
  now rewrite <- (map_map snd he_key), map_snd_enumerate.
Qed.

Lemma append_synced (d : Document) (fl ub : bool) (t : store) :
  0 < PAGE_SIZE ->
  synced t ->
  ~ In (doc_id d) (map he_key (_header t)) ->
  np_str (_key_length t) (doc_id d) = doc_id d ->
  synced (snd (append d fl ub t)) /\
  __len__ (snd (append d fl ub t)) = S (__len__ t).
Proof.
  intros Hp (Hm & Hall & Hnd & Hst & Hlast) Hfresh Hfit.
  destruct (append_state d fl ub t) as (_ & Eh & Em & Es & _).
  set (t1 := snd (append d fl ub t)) in *. clearbody t1.
  destruct (quot_mod_sum (_start t) Hp Hst) as (Hsum & Hq & Hmod & _).
  assert (Hlen : __len__ t = length (_header t)).
  { unfold __len__, PyDict.len. rewrite Hm.
    now rewrite length_map, length_enumerate. }
  assert (Hnone : PyDict.get (doc_id d) (_header_map t) = None).
  { apply get_None_keys. rewrite Hm, keys_live_entries. exact Hfresh. }
  rewrite (set_absent _ _ _ _ Hnone) in Em.
  split.
  - split; [|split; [|split; [|split]]].
    + rewrite Em, Eh, enumerate_snoc, map_app, Hm, Hlen. simpl.
      now rewrite Hfit.
    + rewrite Eh. apply Forall_app. split; [exact Hall|].
      constructor; [|constructor]. simpl. split; [|lia].
      unfold is_none_entry. simpl.
      destruct (Z.eqb_spec (Z.quot (_start t) PAGE_SIZE * PAGE_SIZE) (-1));
        [lia | reflexivity].
    + rewrite Eh, map_app. simpl. rewrite Hfit.
      apply NoDup_snoc; auto.
    + rewrite Es. lia.
    + rewrite Eh, Es. destruct (_header t ++ _) eqn:E.
      * now apply app_eq_nil in E as [_ E].
      * rewrite <- E, last_last. simpl. lia.
  - unfold __len__, PyDict.len in *. rewrite Em, length_app. simpl. lia.
Qed.

Lemma run_appends_synced (ds : list Document) (t : store) :
  0 < PAGE_SIZE ->
  synced t ->
  NoDup (map he_key (_header t) ++ map doc_id ds) ->
  Forall (fun d => np_str (_key_length t) (doc_id d) = doc_id d) ds ->
  synced (run (map Op_append ds) t) /\
  __len__ (run (map Op_append ds) t) = (__len__ t + length ds)%nat.
Proof.
  intros Hp. revert t. induction ds as [|d ds IH]; intros t Hs Hnd Hfit.
  - simpl. split; [exact Hs | lia].
  - inversion Hfit as [|? ? Hd Hfit']; subst.
    change (run (map Op_append (d :: ds)) t)
      with (run (map Op_append ds) (snd (append d true true t))).
    assert (Hfresh : ~ In (doc_id d) (map he_key (_header t))).
    { simpl in Hnd. apply NoDup_remove_2 in Hnd. intros Hin. apply Hnd.
      apply in_or_app. now left. }
    destruct (append_synced d true true t Hp Hs Hfresh Hd) as [Hs1 Hl1].
    destruct (append_state d true true t) as (_ & Eh & _ & _ & _ & _ & Ek & _).
    destruct (IH (snd (append d true true t)) Hs1) as [I1 I2].
    + rewrite Eh, map_app. simpl. rewrite Hd, <- app_assoc. exact Hnd.
    + now rewrite Ek.
    + split; [exact I1|]. rewrite I2, Hl1. simpl. lia.
Qed.

(** X14: records with pairwise different keys that fit the key width,
    appended to a newly created store, survive a reload: the reload returns
    normally and gives the same live mapping, with the same ordinals and
    offsets, and the same write cursor as before it, and the store has one
    live key per record. *)
Theorem appends_survive_reload
        (path : string) (kl n : nat) (ds : list Document) :
  0 < PAGE_SIZE ->
  NoDup (map doc_id ds) ->
  Forall (fun d => np_str kl (doc_id d) = doc_id d) ds ->
  let s := run (map Op_append ds) (snd (__init__ path kl n [] [])) in
  __len__ s = length ds /\
  fst (reload s) = Ok tt /\
  _header_map (snd (reload s)) = _header_map s /\
  _start (snd (reload s)) = _start s /\
  _header (snd (reload s)) = _header s /\
  _body (snd (reload s)) = _body s.
Proof.
  intros Hp Hnd Hfit s.
  destruct (run_appends_synced ds (snd (__init__ path kl n [] [])) Hp)
    as [(Hm & Hall & Hk & Hst & Hlast) Hlen].
  - rewrite fresh_store. simpl. repeat split; try constructor. lia.
  - rewrite fresh_store. exact Hnd.
  - rewrite fresh_store. exact Hfit.
  - fold s in Hm, Hall, Hk, Hst, Hlast, Hlen.
    rewrite fresh_store in Hlen. simpl in Hlen.
    destruct (reload_files s) as (F1 & F2 & F3).
    assert (Hload : load_header_map (_header s) = _header_map s).
    { rewrite Hm. apply load_header_map_distinct; auto.
      eapply Forall_impl; [|exact Hall]. now intros e (H & _). }
    split; [exact Hlen|]. split.
    { apply reload_ok. eapply Forall_impl; [|exact Hall].
      now intros e (_ & H). }
    split; [now rewrite F3|]. split; [|now split].
    rewrite reload_start, Hload, Hlast, Hm.
    destruct (_header s) as [|e h] eqn:E; [reflexivity|].
    reflexivity.
Qed.

(** ** Slices with bounds *)

(** X15: a slice [a:b] with [0 <= a <= b] and no step resolves to the
    ordinals from [a] up to, and not including, the smaller of [b] and
    [len]; a slice [-n:] with [0 < n <= len] resolves to the last [n]
    ordinals. *)
Theorem _iteridx_by_slice_window (a b n : Z) (s : store) :
  (0 <= a <= b ->
   _iteridx_by_slice (mk_slice (Some a) (Some b) None) s
   = map (fun k => a + Z.of_nat k)
         (seq 0 (Z.to_nat (Z.min b (Z.of_nat (__len__ s)) - a)))) /\
  (0 < n <= Z.of_nat (__len__ s) ->
   _iteridx_by_slice (mk_slice (Some (- n)) None None) s
   = map (fun k => Z.of_nat (__len__ s) - n + Z.of_nat k)
         (seq 0 (Z.to_nat n))).
Proof.
  assert (Hr : forall x y, x <= y ->
             py_range x y 1
             = map (fun k => x + Z.of_nat k) (seq 0 (Z.to_nat (y - x)))).
  { intros x y Hxy. unfold py_range, range_len. simpl.
    replace (y - x + 1 - 1) with (y - x) by lia. rewrite Z.div_1_r.
    apply map_ext. intros k. lia. }
  split.
  - intros [Ha Hab]. unfold _iteridx_by_slice.
    cbn [sl_start sl_stop sl_step int_or].
    set (len := Z.of_nat (__len__ s)).
    assert (Hlen : 0 <= len) by (subst len; lia).
    assert (Ha0 : (if a =? 0 then 0 else a) = a).
    { destruct (Z.eqb_spec a 0); lia. }
    assert (Fa : (a <? 0) = false) by (apply Z.ltb_ge; lia).
    assert (Fb : (b <? 0) = false) by (apply Z.ltb_ge; lia).
    assert (Fab : (a <=? b) = true) by (apply Z.leb_le; lia).
    rewrite Ha0.
    repeat (progress (rewrite ?Fa, ?Fb, ?Fab; cbn [andb orb])).
    destruct (Z.ltb_spec len a), (Z.ltb_spec len b); cbn [andb orb];
      try lia.
    + rewrite Z.min_r by lia.
      replace (Z.to_nat (len - a)) with 0%nat by lia. reflexivity.
    + rewrite Z.min_r by lia. apply Hr. lia.
    + rewrite Z.min_l by lia. apply Hr. lia.
  - intros [Hn Hnl]. unfold _iteridx_by_slice.
    cbn [sl_start sl_stop sl_step int_or].
    set (len := Z.of_nat (__len__ s)) in *.
    assert (F0 : (- n =? 0) = false) by (apply Z.eqb_neq; lia).
    assert (F1 : (len <? 0) = false) by (apply Z.ltb_ge; lia).
    assert (F2 : (- n <? 0) = true) by (apply Z.ltb_lt; lia).
    assert (F3 : (- len <=? - n) = true) by (apply Z.leb_le; lia).
    assert (F4 : (- n + len <=? len) = true) by (apply Z.leb_le; lia).
    assert (F5 : (- n + len <? 0) = false) by (apply Z.ltb_ge; lia).
    assert (F6 : (len <? - n + len) = false) by (apply Z.ltb_ge; lia).
    assert (F7 : (len <? len) = false) by (apply Z.ltb_ge; lia).
    repeat (progress (rewrite ?F0, ?F1, ?F2, ?F3, ?F4, ?F5, ?F6, ?F7;
                      cbn [andb orb])).
    rewrite Hr by lia.
    replace (len - (- n + len)) with n by lia.
    apply map_ext. intros k. lia.
Qed.

(** ** Clearing *)

(** X16: [clear] returns normally and leaves both files empty, no live key
    and the write cursor at 0, but it does not touch the buffer pool: a
    record that was cached under a key is still what fetching that key
    gives, although the key is no longer in the store. *)
Theorem clear_keeps_cache (k : string) (d : Document) (s : store) :
  let s' := snd (clear s) in
  fst (clear s) = Ok tt /\
  _header s' = [] /\ _body s' = [] /\ _body_pos s' = 0%nat /\
  __len__ s' = 0%nat /\ _start s' = 0 /\
  buffer_pool s' = buffer_pool s /\
  (pool_get k (buffer_pool s) = Some d ->
   __contains__ k s' = false /\
   __getitem__ (IStr k) s' = (Ok (A_Document d), s')).
Proof.
  intros s'. subst s'. unfold clear, _load_header_body. simpl.
  do 7 (split; [reflexivity|]).
  intros Hp. split; [reflexivity|].
  unfold __getitem__, bind, getitem_str. simpl. now rewrite Hp.
Qed.

(** ** Assigning under a key *)


End MemmapFacts.

(** * The properties on concrete stores *)

(** The named stores are what their histories leave. *)
Lemma named_stores :
  store_a = @run P8 [Op_append doc_a] (new_store 36) /\
  store_a_b = @run P8 [Op_append doc_a; Op_append doc_b] (new_store 36) /\
  store_a_deleted
  = @run P8 [Op_append doc_a; Op_delitem (IStr "a")] (new_store 36) /\
  store_a_c
  = @run P8 [Op_append doc_a; Op_append doc_b; Op_append doc_c;
             Op_delitem (IStr "b")] (new_store 36) /\
  store_aliased
  = @run P8 [Op_append doc_a; Op_setitem (IInt 0) doc_b; Op_append doc_b']
         (new_store 36).
Proof. repeat split; vm_compute; reflexivity. Qed.

(** C1 on a store holding [doc_a]: every case of the theorem applies. *)
Lemma load_resume_offset_witness :
  _start (snd (@_load_header_body P8 Mode_a store_a)) = 7 /\
  _start (snd (@reload P8 (snd (@append P8 doc_b true true store_a)))) = 12 /\
  _start (snd (@_load_header_body P8 Mode_a store_a_deleted)) = 0.
Proof.
  destruct (@load_resume_offset P8 store_a) as (_ & H2 & H3).
  destruct (@load_resume_offset P8 store_a_deleted) as (H1 & _).
  split; [|split].
  - rewrite (H2 [] (mk_entry "a" 0 0 7)); reflexivity.
  - destruct (H3 doc_b true true) as (_ & E & _);
      [reflexivity | discriminate | rewrite E; vm_compute; reflexivity].
  - destruct H1 as (_ & _ & E & _); [|exact E].
    repeat constructor.
Defined.

(** C1 fails as stated: after the only record is deleted, the last physical
    entry is a tombstone whose offsets add up to -2, the load resumes at 0
    and not there, and the next append writes over the bytes of the deleted
    record. *)
Lemma load_resume_offset_counterexample :
  let s := store_a_deleted in
  let l := last (_header s) zero_entry in
  s = @run P8 [Op_append doc_a; Op_delitem (IStr "a")] (new_store 36) /\
  is_none_entry l = true /\
  _start (snd (@reload P8 s)) = 0 /\
  he_page_offset l + he_end l = -2 /\
  _start (snd (@reload P8 s)) <> he_page_offset l + he_end l /\
  _body s = doc_a /\
  firstn 5 (_body (snd (@append P8 doc_b true true (snd (@reload P8 s)))))
  = doc_b.
Proof.
  cbv zeta. repeat split; try (vm_compute; reflexivity).
  vm_compute. discriminate.
Defined.

(** C2 on the store left by appending three records and deleting the second:
    compaction keeps what iteration shows and does not grow the files. *)
Lemma prune_preserves_items_witness :
  fst (@prune P8 "/tmp/compact" store_a_c) = Ok tt /\
  @items P8 (snd (@prune P8 "/tmp/compact" store_a_c)) = @items P8 store_a_c /\
  @disk_usage P8 (snd (@prune P8 "/tmp/compact" store_a_c))
  <= @disk_usage P8 store_a_c.
Proof.
  destruct (@prune_preserves_items P8 "/tmp/compact" store_a_c [doc_a; doc_c])
    as (H1 & _ & H3 & H4).
  - reflexivity.
  - intros d. reflexivity.
  - repeat constructor; simpl; intuition discriminate.
  - vm_compute. reflexivity.
  - vm_compute. reflexivity.
  - repeat constructor; discriminate.
  - split; [exact H1|]. split; [exact H3|]. apply H4.
    + vm_compute. lia.
    + repeat constructor; vm_compute; congruence.
    + change (ForallOrdPairs disjoint [(0, 7); (12, 16)]).
      constructor; [|repeat constructor].
      constructor; [|constructor]. left. simpl. lia.
Defined.

(** C2 fails as stated: after [set(0, doc_b)] over the key ["a"] and an
    append of another record with key ["b"], iteration shows two records;
    after [prune] it shows one. *)
Lemma prune_preserves_items_counterexample :
  let s := store_aliased in
  s = @run P8 [Op_append doc_a; Op_setitem (IInt 0) doc_b; Op_append doc_b']
           (new_store 36) /\
  @items P8 s = Ok [("a", doc_b); ("b", doc_b')] /\
  fst (@prune P8 "/tmp/compact" s) = Ok tt /\
  @items P8 (snd (@prune P8 "/tmp/compact" s)) = Ok [("b", doc_b')] /\
  @items P8 (snd (@prune P8 "/tmp/compact" s)) <> @items P8 s.
Proof.
  cbv zeta. repeat split; try (vm_compute; reflexivity).
  vm_compute. discriminate.
Defined.

(** C3 on a store holding [doc_a], setting ordinal 0 to [doc_b]: the
    tombstone is in the slot just appended for [doc_b], the slot of [a] is
    as before, and the reload raises and maps [a] to [doc_a] again.  And on
    the store holding [doc_a] and [doc_c] after a deletion, setting ordinal 0
    to [doc_b']: the tombstone overwrites the slot of [c], which is gone
    after a reload. *)
Lemma setitem_ordinal_tombstones_new_record_witness :
  let s' := snd (@__setitem__ P8 (IInt 0) doc_b store_a) in
  let t' := snd (@__setitem__ P8 (IInt 0) doc_b' store_a_c) in
  (_header s' = [mk_entry "a" 0 0 7; mk_entry "b" (-1) (-1) (-1)] /\
   fst (@reload P8 s') = Raise OSError /\
   _header_map (snd (@reload P8 s')) = [("a", (0%nat, 0, 0, 7))] /\
   fst (@get_doc_by_key P8 "a" s') = Ok doc_b /\
   fst (@get_doc_by_key P8 "a" (snd (@reload P8 s'))) = Ok doc_a) /\
  (nth_error (_header store_a_c) 2 = Some (mk_entry "c" 8 4 8) /\
   nth_error (_header t') 2 = Some (mk_entry "b" (-1) (-1) (-1)) /\
   nth_error (_header t') 3 = Some (mk_entry "b" 16 0 6) /\
   @__contains__ P8 "c" t' = true /\
   @__contains__ P8 "c" (snd (@reload P8 t')) = false).
Proof.
  intros s' t'. split.
  - destruct (@setitem_ordinal_tombstones_new_record P8 0 doc_b
                (mk_entry "a" 0 0 7) store_a)
      as (_ & _ & _ & _ & _ & _ & H & _).
    + vm_compute. split; [discriminate | reflexivity].
    + reflexivity.
    + discriminate.
    + vm_compute. lia.
    + destruct (H eq_refl) as (H1 & H2 & H3).
      split; [exact H1|]. split; [exact (H3 eq_refl)|].
      split; [exact H2|]. split; vm_compute; reflexivity.
  - destruct (@setitem_ordinal_tombstones_new_record P8 0 doc_b'
                (mk_entry "a" 0 0 7) store_a_c)
      as (_ & _ & _ & _ & _ & H1 & _ & H2).
    + vm_compute. split; [discriminate | reflexivity].
    + reflexivity.
    + discriminate.
    + vm_compute. lia.
    + split; [reflexivity|]. split; [exact H1|].
      split; [apply H2; vm_compute; lia|].
      split; vm_compute; reflexivity.
Defined.

(** C4 on a new store: an eight-byte record ends on the page boundary and
    the next record starts the next page. *)
Lemma append_offsets_witness :
  let s' := snd (@append P8 doc_a8 true true (new_store 36)) in
  _header (snd (@append P8 doc_b true true s')) =
  _header s' ++ [mk_entry "b" 8 0 5] /\
  int_truediv (_start s') (@PAGE_SIZE P8) * @PAGE_SIZE P8 = 8.
Proof.
  intros s'.
  destruct (@append_offsets P8 doc_a8 true true (new_store 36))
    as (_ & _ & _ & _ & _ & _ & H).
  - reflexivity.
  - split; [discriminate | reflexivity].
  - destruct (H eq_refl eq_refl doc_b true true) as (E1 & E2 & _).
    split; [exact E2 | exact E1].
Defined.

(** C4 fails as stated: after two appends and the deletion of the second
    key, the reload raises from its seek and leaves the write cursor at -2;
    the next append records page offset 0, where the floor formula gives
    minus one page, and the cursor comes out at 10 and not at [-2 + L].
    And from 2^53 on the quotient computed in floating point is no longer
    the floor. *)
Lemma append_offsets_counterexample :
  let s := store_cursor_lost in
  let s' := snd (@append P8 doc_c true true s) in
  let L := Z.of_nat (length (@binary_str P8 doc_c)) in
  s = @run P8 [Op_append doc_a; Op_append doc_b; Op_delitem (IStr "b");
               Op_reload] (new_store 36) /\
  fst (@reload P8 (@run P8 [Op_append doc_a; Op_append doc_b;
                            Op_delitem (IStr "b")] (new_store 36)))
  = Raise OSError /\
  _start s = -2 /\
  last (_header s') zero_entry = mk_entry "c" 0 6 10 /\
  _start s / @PAGE_SIZE P8 * @PAGE_SIZE P8 = -8 /\
  he_page_offset (last (_header s') zero_entry)
  <> _start s / @PAGE_SIZE P8 * @PAGE_SIZE P8 /\
  _start s' = 10 /\
  _start s' <> _start s + L /\
  int_truediv (2 ^ 56 - 1) (@PAGE_SIZE P8) = 2 ^ 53 /\
  (2 ^ 56 - 1) / @PAGE_SIZE P8 = 2 ^ 53 - 1.
Proof.
  cbv zeta. repeat split; try (vm_compute; reflexivity);
    vm_compute; discriminate.
Defined.

(** C5 on a new store. *)
Lemma len_counts_latest_live_witness :
  @__len__ P8 (@run P8 (map (@edit_op P8)
                          [Append doc_a; Append doc_b; Delete "a"])
                 (new_store 36)) = 1%nat.
Proof.
  rewrite (@len_counts_latest_live P8
             [Append doc_a; Append doc_b; Delete "a"] (new_store 36));
    reflexivity.
Defined.

(** C5 fails as stated: two records appended under one key and never
    deleted count for two, and the reported size is one. *)
Lemma len_counts_latest_live_counterexample :
  let es := [@Append P8 doc_b; Append doc_b'] in
  @not_tombstoned P8 es = 2%nat /\
  @__len__ P8 (@run P8 (map (@edit_op P8) es) (new_store 36)) = 1%nat /\
  @__len__ P8 (@run P8 (map (@edit_op P8) es) (new_store 36))
  <> @not_tombstoned P8 es.
Proof.
  cbv zeta. repeat split; try (vm_compute; reflexivity).
  vm_compute. discriminate.
Defined.

(** C6 on a store holding [doc_a] and [doc_b]. *)
Lemma delete_then_absent_witness :
  @__contains__ P8 "a" (snd (@__delitem__ P8 (IStr "a") store_a_b)) = false /\
  fst (@__getitem__ P8 (IStr "a") (snd (@__delitem__ P8 (IStr "a") store_a_b)))
  = Raise KeyError.
Proof.
  destruct (@delete_then_absent P8 "a" store_a_b) as (_ & H2 & H3 & _).
  - reflexivity.
  - split; [exact H2 | exact H3].
Defined.

(** C7 on a store holding [doc_a] and [doc_b], and on the history that
    built it. *)
Lemma tombstone_frame_and_keys_witness :
  _body (snd (@__delitem__ P8 (IStr "a") store_a_b)) = _body store_a_b /\
  nth_error (_header (snd (@__delitem__ P8 (IStr "a") store_a_b))) 1
  = nth_error (_header store_a_b) 1 /\
  exists d, In d [doc_a; doc_b] /\
            ("b" = @doc_id P8 d \/ "b" = np_str 36 (@doc_id P8 d)).
Proof.
  destruct (@tombstone_frame_and_keys P8) as [H1 H2].
  destruct (H1 "a" store_a_b 0%nat 0 0 7 eq_refl)
    as (_ & _ & Hb & _ & _ & _ & Hs).
  split; [exact Hb|]. split.
  - apply Hs; [discriminate | vm_compute; lia].
  - apply (H2 "/data/dam" 36%nat 1000%nat [Op_append doc_a; Op_append doc_b]).
    vm_compute. auto.
Defined.

(** C7 fails as stated: with keys of one character, the record appended
    under the key ["ab"] is found under ["a"] after a reload, a key that no
    appended record has. *)
Lemma tombstone_frame_and_keys_counterexample :
  let ops := [@Op_append P8 doc_ab; Op_reload] in
  In "a" (PyDict.keys (_header_map (@run P8 ops (new_store 1)))) /\
  map (@doc_id P8) (@ever_appended P8 ops (new_store 1)) = ["ab"] /\
  ~ In "a" (map (@doc_id P8) (@ever_appended P8 ops (new_store 1))).
Proof.
  cbv zeta. split; [vm_compute; auto|]. split; [vm_compute; reflexivity|].
  vm_compute. intros [H|[]]. discriminate.
Defined.

(** C9: on a store holding one record, indexing with [slice(2, 0, -1)]
    resolves the ordinals 2 and 1, neither of which is a slot of the header
    file, and raises [IndexError]. *)
Theorem getitem_slice_backwards_raises :
  @__len__ P8 store_a = 1%nat /\
  @_iteridx_by_slice P8 slice_2_0_back store_a = [2; 1] /\
  fst (@__getitem__ P8 (ISlice slice_2_0_back) store_a) = Raise IndexError.
Proof. repeat split; vm_compute; reflexivity. Qed.

(** C10 on two instances over one directory with different contents, and on
    two instances with the same contents over different directories. *)
Lemma eq_same_type_and_paths_witness :
  let c := snd (@__init__ P8 "/data/other" 36 1000 [] []) in
  @__eq__ P8 "DocumentArrayMemmap" (new_store 36)
          (Memmap_obj "DocumentArrayMemmap" store_a) = true /\
  @__eq__ P8 "DocumentArrayMemmap" (new_store 36)
          (Memmap_obj "DocumentArrayMemmap" c) = false.
Proof.
  intros c.
  destruct (@eq_same_type_and_paths P8 "DocumentArrayMemmap"
              "DocumentArrayMemmap" (new_store 36) store_a) as (H1 & _ & H3).
  split.
  - apply H1. repeat split; reflexivity.
  - apply (H3 36%nat [] [] 0%nat [] 0 (mk_pool 1000 [])
              "/data/other/header.bin" "/data/other/body.bin").
    discriminate.
Defined.

(** * Further properties on concrete stores *)

(** X1 on a store of two records: [slice(-5, 7, 2)] resolves to ordinal 0. *)
Lemma _iteridx_by_slice_in_bounds_witness :
  0 <= 0 < Z.of_nat (@__len__ P8 store_a_b).
Proof.
  apply (@_iteridx_by_slice_in_bounds P8
           (mk_slice (Some (-5)) (Some 7) (Some 2)) store_a_b 0).
  - reflexivity.
  - vm_compute. left. reflexivity.
Defined.

(** X3 on a store holding [doc_a], for the key ["zz"]. *)
Lemma missing_key_raises_witness :
  @__delitem__ P8 (IStr "zz") store_a = (Raise KeyError, store_a) /\
  @__getitem__ P8 (IStr "zz") store_a = (Raise KeyError, store_a).
Proof.
  destruct (@missing_key_raises P8 "zz" store_a) as (_ & H2 & _ & H4).
  - reflexivity.
  - split; [exact H2 | apply H4; reflexivity].
Defined.


(** X5 on a store holding one record. *)
Lemma setitem_out_of_range_raises_witness :
  @__setitem__ P8 (IInt 1) doc_b store_a = (Raise IndexError, store_a) /\
  @__setitem__ P8 (IInt (-1)) doc_b store_a = (Raise IndexError, store_a).
Proof.
  destruct (@setitem_out_of_range_raises P8 1 slice_2_0_back doc_b store_a)
    as (H1 & _).
  destruct (@setitem_out_of_range_raises P8 (-1) slice_2_0_back doc_b store_a)
    as (H2 & _).
  split; [apply H1 | apply H2]; vm_compute; intros [H H']; congruence.
Defined.



(** X8 on a store holding [doc_a], appending [doc_b]. *)
Lemma append_keeps_other_records_witness :
  fst (@get_doc_by_key P8 "a" (snd (@append P8 doc_b true true store_a)))
  = Ok doc_a.
Proof.
  apply (@append_keeps_other_records P8 doc_b true true "a" doc_a store_a).
  - reflexivity.
  - discriminate.
  - intros o p r e H. vm_compute in H. injection H as _ _ _ <-. discriminate.
  - reflexivity.
Defined.

(** X10 on the history of two appends. *)
Lemma reachable_ordinals_in_header_witness :
  let s := @run P8 [Op_append doc_a; Op_append doc_b] (new_store 36) in
  (@__len__ P8 s <= length (_header s))%nat /\
  length (_header (snd (@__delitem__ P8 (IStr "a") s))) = length (_header s).
Proof.
  intros s.
  destruct (@reachable_ordinals_in_header P8 "/data/dam" 36 1000
              [Op_append doc_a; Op_append doc_b]) as (H1 & H2).
  split; [exact H1|].
  destruct (H2 "a" 0%nat 0 0 7) as (_ & H3); [reflexivity | exact H3].
Defined.

(** X11 on a store holding [doc_a]: an append, a deletion and an assignment
    under a key. *)
Lemma body_is_append_log_witness :
  _body (@run P8 [Op_append doc_b; Op_delitem (IStr "a");
                  Op_setitem (IStr "c") doc_c] store_a)
  = doc_a ++ doc_b ++ doc_c.
Proof.
  destruct (@body_is_append_log P8
              [Op_append doc_b; Op_delitem (IStr "a");
               Op_setitem (IStr "c") doc_c] store_a) as (H & _);
    [ reflexivity
    | intros [H|[H|[H|[]]]]; discriminate
    | intros [H|[H|[H|[]]]]; discriminate
    | reflexivity | reflexivity | reflexivity | ].
  rewrite H. reflexivity.
Defined.


(** X13 on the same store. *)
Lemma prune_then_slice_all_witness :
  let s' := snd (@prune P8 "/tmp/compact" store_a_c) in
  @__getitem__ P8 (ISlice (mk_slice None None None)) s'
  = (Ok (A_DocumentArray [doc_a; doc_c]), s').
Proof.
  apply (@prune_then_slice_all P8 "/tmp/compact" store_a_c [doc_a; doc_c]).
  - reflexivity.
  - vm_compute. reflexivity.
  - repeat constructor; simpl; intuition discriminate.
  - reflexivity.
  - repeat constructor; discriminate.
Defined.

(** X14 on two appends to a new store. *)
Lemma appends_survive_reload_witness :
  let s := @run P8 (map (@Op_append P8) [doc_a; doc_b])
                (snd (@__init__ P8 "/data/dam" 36 1000 [] [])) in
  fst (@reload P8 s) = Ok tt /\
  _header_map (snd (@reload P8 s)) = _header_map s /\
  _start (snd (@reload P8 s)) = _start s.
Proof.
  intros s.
  destruct (@appends_survive_reload P8 "/data/dam" 36 1000 [doc_a; doc_b])
    as (_ & H2 & H3 & H4 & _).
  - reflexivity.
  - repeat constructor; simpl; intuition discriminate.
  - repeat constructor.
  - split; [exact H2|]. split; [exact H3 | exact H4].
Defined.

(** X15 on a store of two records: [0:1] and [-1:]. *)
Lemma _iteridx_by_slice_window_witness :
  @_iteridx_by_slice P8 (mk_slice (Some 0) (Some 1) None) store_a_b = [0] /\
  @_iteridx_by_slice P8 (mk_slice (Some (-1)) None None) store_a_b = [1].
Proof.
  destruct (@_iteridx_by_slice_window P8 0 1 1 store_a_b) as (H1 & H2).
  split.
  - rewrite H1; [reflexivity | split; discriminate].
  - refine (eq_trans (H2 _) _);
      [split; [reflexivity | discriminate] | reflexivity].
Defined.

(** X16 on a store holding [doc_a], cached under ["a"]. *)
Lemma clear_keeps_cache_witness :
  let s' := snd (@clear P8 store_a) in
  @__contains__ P8 "a" s' = false /\
  @__getitem__ P8 (IStr "a") s' = (Ok (A_Document doc_a), s').
Proof.
  intros s'.
  destruct (@clear_keeps_cache P8 "a" doc_a store_a)
    as (_ & _ & _ & _ & _ & _ & _ & H).
  apply H. reflexivity.
Defined.

